(** * libraclient: ledger-state guard and transaction confirmation

    A shallow embedding of [libraclient/client.go].  The client keeps the
    ledger state (timestamp, version) of the last response it accepted,
    validates every JSON-RPC response against it, and offers
    [WaitForTransaction], a polling loop built on [GetAccountTransaction].

    Conventions of the embedding:
    - [uint64], [byte] and [time.Duration] (an [int64]) are integers in [Z];
      every operation that can leave the range has its wrap-around written
      out ([mul_uint64], [add_int64], [to_byte]);
    - a Go pointer result ([*Transaction]) is an [option], a slice is a
      [list] whose [nil] is the nil slice, a Go [error] is an [option error];
    - the receiver [c *client] is threaded explicitly; the [sync.RWMutex]
      only serialises accesses and has no counterpart in this sequential
      model: every method runs from start to end without interleaving;
    - the [jsonrpc] package and the data types of the package that live in
      other files are not part of this file; they are taken as parameters
      ([External], [Unmarshal], [JsonRpcClient]). *)

From Stdlib Require Import ZArith List String Bool Lia.
Import ListNotations.
Open Scope Z_scope.

(** ** Machine integers *)

Definition wrap_uint64 (z : Z) : Z := z mod 2 ^ 64.

Definition wrap_int64 (z : Z) : Z := (z + 2 ^ 63) mod 2 ^ 64 - 2 ^ 63.

(** Go's conversion [byte(x)] of an integer. *)
Definition to_byte (z : Z) : Z := z mod 256.

(** [a * b] on [uint64]. *)
Definition mul_uint64 (a b : Z) : Z := wrap_uint64 (a * b).

(** [a + b] on [int64] ([time.Duration]). *)
Definition add_int64 (a b : Z) : Z := wrap_int64 (a + b).

Definition is_uint64 (z : Z) : Prop := 0 <= z < 2 ^ 64.
Definition is_byte (z : Z) : Prop := 0 <= z < 256.

(** ** Constants *)

Module Method.
Definition GetCurrencies : string := "get_currencies".
Definition GetMetadata : string := "get_metadata".
Definition GetAccount : string := "get_account".
Definition GetAccountTransaction : string := "get_account_transaction".
Definition GetAccountTransactions : string := "get_account_transactions".
Definition GetTransactions : string := "get_transactions".
Definition GetEvents : string := "get_events".
Definition Submit : string := "submit".
End Method.

Definition VmStatusExecuted : string := "executed".

(** [time.Millisecond] and [time.Second] in nanoseconds. *)
Definition Millisecond : Z := 1000000.
Definition Second : Z := 1000 * Millisecond.

(** ** Data *)

(** LedgerState represents response LibraLedgerTimestampusec &
    LibraLedgerVersion. *)
Record LedgerState : Type := mkLedgerState {
  TimestampUsec : Z;
  Version : Z
}.

(** The fields of [client] that the code reads or writes; [rpc] is the
    [JsonRpcClient] instance below and [mux] is not modelled. *)
Record client : Type := mkClient {
  chainID : Z;
  last : LedgerState
}.

(** NewWithJsonRpcClient creates a `LibraClient` with given
    `jsonrpc.Client`: the composite literal sets [chainID] (and [rpc], the
    [JsonRpcClient] instance); [last] is the zero value. *)
Definition NewWithJsonRpcClient (chainID : Z) : client :=
  mkClient chainID (mkLedgerState 0 0).

(** Declarations of the package and of [jsonrpc] that this file uses but
    does not define. *)
Class External : Type := {
  ResponseError : Type;
  ForeignError : Type;
  RawMessage : Type;
  CurrencyInfo : Type;
  Metadata : Type;
  Account : Type;
  Event : Type;
  Transaction : Type;
  VmStatus : Type;
  zeroMetadata : Metadata;
  zeroAccount : Account;
  zeroTransaction : Transaction;
  (** [txn.Transaction.Signature] *)
  txnSignature : Transaction -> string;
  (** [txn.VmStatus] and [txn.VmStatus.Type] *)
  txnVmStatus : Transaction -> VmStatus;
  vmStatusType : VmStatus -> string
}.

(** A parameter of a request ([jsonrpc.Param], an [interface{}]). *)
Inductive Param : Type :=
| PAddress (a : string)
| PString (s : string)
| PUint64 (n : Z)
| PBool (b : bool).

Record Request : Type := mkRequest {
  reqMethod : string;
  reqParams : list Param
}.

Definition NewRequest (method : string) (params : list Param) : Request :=
  mkRequest method params.

Section Model.
Context `{Ext : External}.

(** The response of [jsonrpc] for one request. *)
Record Response : Type := mkResponse {
  LibraChainID : Z;
  LibraLedgerTimestampusec : Z;
  LibraLedgerVersion : Z;
  Error : option ResponseError;
  Result : RawMessage
}.

(** The error values the client returns.  The constructors carry the
    arguments of the format strings:
    - [ErrChainID e g]: "chain id mismatch error: expected server response
      chain id == e, but got g";
    - [ErrStale f l g]: "stale response error: expected server response
      ledger f >= l, but got g";
    - [ErrSignature]: "found transaction, but signature does not match";
    - [ErrExecution s]: "transaction execution failed: s";
    - [ErrExpired]: "transaction expired";
    - [ErrTimeout t]: "transaction not found within timeout period: t";
    - [ErrResponse e]: the response's own error [resp.Error];
    - [ErrForeign e]: an error made by [jsonrpc] (transport, decoding). *)
Inductive error : Type :=
| ErrForeign (e : ForeignError)
| ErrResponse (e : ResponseError)
| ErrChainID (expected got : Z)
| ErrStale (field : string) (lastv got : Z)
| ErrSignature
| ErrExecution (st : VmStatus)
| ErrExpired
| ErrTimeout (timeout : Z).

(** [resp.UnmarshalResult(ret)]: from the response and the current
    content of [*ret], the new content of [*ret] and the pair the call
    returns; its error, when there is one, is made by [jsonrpc]. *)
Class Unmarshal (T : Type) : Type :=
  UnmarshalResult : Response -> T -> T * (bool * option ForeignError).

(** [c.rpc.Call(req)] followed by [resps[req.ID]]: the outcome of the
    [n]-th invocation made by this client, an error or the response that
    belongs to the request.  The transport answers every request it does
    not fail, so the lookup [resps[req.ID]] finds its entry. *)
Class JsonRpcClient : Type :=
  Call : nat -> Request -> ForeignError + Response.

(** What a run of the client can observe and change: the client itself,
    the number of [rpc.Call] invocations made so far, and the durations
    passed to [time.Sleep], latest first. *)
Record world : Type := mkWorld {
  self : client;
  calls : nat;
  slept : list Z
}.

Definition set_self (w : world) (c : client) : world :=
  mkWorld c (calls w) (slept w).

Definition Sleep (w : world) (d : Z) : world :=
  mkWorld (self w) (calls w) (d :: slept w).

(** LastResponseLedgerState returns last recorded response ledger state *)
Definition LastResponseLedgerState (c : client) : LedgerState := last c.

(** UpdateLastResponseLedgerState updates LastResponseLedgerState *)
Definition UpdateLastResponseLedgerState (c : client) (state : LedgerState)
  : client :=
  mkClient (chainID c) state.

Definition validateChainID (c : client) (id : Z) : option error :=
  if negb (chainID c =? id) then Some (ErrChainID (chainID c) id)
  else None.

Definition validateAndUpdateState (c : client) (state : LedgerState)
  : client * option error :=
  let last := LastResponseLedgerState c in
  if (Version last =? Version state)
     && (TimestampUsec last =? TimestampUsec state)
  then (c, None)
  else if Version last >? Version state
  then (c, Some (ErrStale "version" (Version last) (Version state)))
  else if TimestampUsec last >? TimestampUsec state
  then (c, Some (ErrStale "timestamp(usec)"
                          (TimestampUsec last) (TimestampUsec state)))
  else (UpdateLastResponseLedgerState c state, None).

(** *** The two critical sections of [validateAndUpdateState]

    The function takes [mux] twice: for reading, inside
    [LastResponseLedgerState], and for writing, inside
    [UpdateLastResponseLedgerState].  The comparisons in between work on the
    local copy [last] and hold no lock, so that the steps of two calls that
    overlap in time interleave at the grain of these two sections. *)

(** What the comparisons decide from the local copy. *)
Inductive verdict : Type :=
| VNoop
| VReject (err : error)
| VStore.

Definition compare_last (last state : LedgerState) : verdict :=
  if (Version last =? Version state)
     && (TimestampUsec last =? TimestampUsec state)
  then VNoop
  else if Version last >? Version state
  then VReject (ErrStale "version" (Version last) (Version state))
  else if TimestampUsec last >? TimestampUsec state
  then VReject (ErrStale "timestamp(usec)"
                         (TimestampUsec last) (TimestampUsec state))
  else VStore.

(** Where a call of [validateAndUpdateState] stands: entered with its
    argument, holding the copy it has read, or returned. *)
Inductive progress : Type :=
| Entered (state : LedgerState)
| Holding (last state : LedgerState)
| Returned (err : option error).

(** One step of a call on the shared client: the read section, or the
    comparisons followed by the write section when they reach it. *)
Definition advance (c : client) (p : progress) : client * progress :=
  match p with
  | Entered state => (c, Holding (LastResponseLedgerState c) state)
  | Holding last state =>
    match compare_last last state with
    | VNoop => (c, Returned None)
    | VReject err => (c, Returned (Some err))
    | VStore => (UpdateLastResponseLedgerState c state, Returned None)
    end
  | Returned err => (c, Returned err)
  end.

(** Two calls on one client under a schedule: [true] lets the first call
    take its next step, [false] the second. *)
Fixpoint interleave (schedule : list bool) (c : client) (p1 p2 : progress)
  : client * (progress * progress) :=
  match schedule with
  | [] => (c, (p1, p2))
  | true :: rest =>
    let '(c', p1') := advance c p1 in interleave rest c' p1' p2
  | false :: rest =>
    let '(c', p2') := advance c p2 in interleave rest c' p1 p2'
  end.

Context {Rpc : JsonRpcClient}.

(** [call] returns the world after the call, the content of [*ret] after
    it, and the pair [(bool, error)] of the Go function. *)
Definition call {T : Type} {U : Unmarshal T} (w : world) (method : string)
  (ret : T) (params : list Param) : world * (T * (bool * option error)) :=
  let req := NewRequest method params in
  let w1 := mkWorld (self w) (S (calls w)) (slept w) in
  match Call (calls w) req with
  | inl err => (w1, (ret, (false, Some (ErrForeign err))))
  | inr resp =>
    match validateChainID (self w1) (to_byte (LibraChainID resp)) with
    | Some err => (w1, (ret, (false, Some err)))
    | None =>
      let '(c2, err) :=
        validateAndUpdateState (self w1)
          (mkLedgerState (LibraLedgerTimestampusec resp)
                         (LibraLedgerVersion resp)) in
      let w2 := set_self w1 c2 in
      match err with
      | Some err => (w2, (ret, (false, Some err)))
      | None =>
        match Error resp with
        | Some e => (w2, (ret, (false, Some (ErrResponse e))))
        | None =>
          let '(ret', (ok, e)) := UnmarshalResult resp ret in
          (w2, (ret', (ok, option_map ErrForeign e)))
        end
      end
    end
  end.

(** The candidate state that [call] builds from a response. *)
Definition candidate (resp : Response) : LedgerState :=
  mkLedgerState (LibraLedgerTimestampusec resp) (LibraLedgerVersion resp).

(** The world once [rpc.Call] has been invoked. *)
Definition called (w : world) : world :=
  mkWorld (self w) (S (calls w)) (slept w).

(** What the two checks of [call] decide for a response: the error of the
    chain-id check, else the error of the staleness check, else none. *)
Definition validation_error (c : client) (resp : Response) : option error :=
  match validateChainID c (to_byte (LibraChainID resp)) with
  | Some err => Some err
  | None => snd (validateAndUpdateState c (candidate resp))
  end.

(** The decoders of the result types, one per type of [ret] that the
    methods pass to [call]; [unit] stands for the [nil] of [Submit]. *)
Class Decoders : Type := {
  dec_currencies :: Unmarshal (list CurrencyInfo);
  dec_metadata :: Unmarshal Metadata;
  dec_account :: Unmarshal Account;
  dec_transaction :: Unmarshal Transaction;
  dec_transactions :: Unmarshal (list Transaction);
  dec_events :: Unmarshal (list Event);
  dec_nil :: Unmarshal unit
}.

Context {Dec : Decoders}.

(** GetCurrencies calls to "get_currencies" method *)
Definition GetCurrencies (w : world)
  : world * (list CurrencyInfo * option error) :=
  let '(w', (ret, (ok, err))) := call w Method.GetCurrencies [] [] in
  if negb ok then (w', ([], err)) else (w', (ret, None)).

Definition GetMetadata (w : world)
  : world * (option Metadata * option error) :=
  let '(w', (ret, (ok, err))) :=
    call w Method.GetMetadata zeroMetadata [] in
  if negb ok then (w', (None, err)) else (w', (Some ret, None)).

Definition GetMetadataByVersion (w : world) (version : Z)
  : world * (option Metadata * option error) :=
  let '(w', (ret, (ok, err))) :=
    call w Method.GetMetadata zeroMetadata [PUint64 version] in
  if negb ok then (w', (None, err)) else (w', (Some ret, None)).

Definition GetAccount (w : world) (address : string)
  : world * (option Account * option error) :=
  let '(w', (ret, (ok, err))) :=
    call w Method.GetAccount zeroAccount [PAddress address] in
  if negb ok then (w', (None, err)) else (w', (Some ret, None)).

Definition GetAccountTransaction (w : world) (address : string)
  (sequenceNum : Z) (includeEvent : bool)
  : world * (option Transaction * option error) :=
  let '(w', (ret, (ok, err))) :=
    call w Method.GetAccountTransaction zeroTransaction
      [PAddress address; PUint64 sequenceNum; PBool includeEvent] in
  if negb ok then (w', (None, err)) else (w', (Some ret, None)).

Definition GetAccountTransactions (w : world) (address : string)
  (start limit : Z) (includeEvent : bool)
  : world * (list Transaction * option error) :=
  let '(w', (ret, (_, err))) :=
    call w Method.GetAccountTransactions []
      [PAddress address; PUint64 start; PUint64 limit; PBool includeEvent]
  in
  match err with
  | Some e => (w', ([], Some e))
  | None => (w', (ret, None))
  end.

Definition GetTransactions (w : world) (startVersion limit : Z)
  (includeEvent : bool) : world * (list Transaction * option error) :=
  let '(w', (ret, (ok, err))) :=
    call w Method.GetTransactions []
      [PUint64 startVersion; PUint64 limit; PBool includeEvent] in
  if negb ok then (w', ([], err)) else (w', (ret, None)).

Definition GetEvents (w : world) (key : string) (start limit : Z)
  : world * (list Event * option error) :=
  let '(w', (ret, (ok, err))) :=
    call w Method.GetEvents [] [PString key; PUint64 start; PUint64 limit]
  in
  if negb ok then (w', ([], err)) else (w', (ret, None)).

Definition Submit (w : world) (data : string) : world * option error :=
  let '(w', (_, (ok, err))) := call w Method.Submit tt [PString data] in
  if negb ok then (w', err) else (w', None).

(** *** WaitForTransaction *)

Definition step : Z := Millisecond * 500.

(** One iteration of the loop of [WaitForTransaction]: [Some r] when the
    iteration executes a [return], [None] when it reaches the end of the
    body (after [time.Sleep(step)]). *)
Definition WaitForTransaction_iter (w : world) (address : string) (seq : Z)
  (signature : string) (expirationTimeSec : Z)
  : world * option (option Transaction * option error) :=
  let '(w1, (txn, err)) := GetAccountTransaction w address seq true in
  match err with
  | Some e => (w1, Some (None, Some e))
  | None =>
    match txn with
    | Some t =>
      if negb (String.eqb (txnSignature t) signature)
      then (w1, Some (None, Some ErrSignature))
      else if negb (String.eqb (vmStatusType (txnVmStatus t))
                               VmStatusExecuted)
      then (w1, Some (None, Some (ErrExecution (txnVmStatus t))))
      else (w1, Some (Some t, None))
    | None =>
      if mul_uint64 expirationTimeSec 1000000
         <=? TimestampUsec (LastResponseLedgerState (self w1))
      then (w1, Some (None, Some ErrExpired))
      else (Sleep w1 step, None)
    end
  end.

(** The loop [for i := time.Duration(0); i < timeout; i += step], run for
    at most [fuel] iterations; [None] when the fuel is used up before the
    loop is left. *)
Fixpoint WaitForTransaction_loop (fuel : nat) (w : world) (i : Z)
  (address : string) (seq : Z) (signature : string)
  (expirationTimeSec : Z) (timeout : Z)
  : world * option (option Transaction * option error) :=
  if i <? timeout then
    match fuel with
    | O => (w, None)
    | S fuel' =>
      match WaitForTransaction_iter w address seq signature
              expirationTimeSec with
      | (w', Some r) => (w', Some r)
      | (w', None) =>
        WaitForTransaction_loop fuel' w' (add_int64 i step) address seq
          signature expirationTimeSec timeout
      end
    end
  else (w, Some (None, Some (ErrTimeout timeout))).

(** WaitForTransaction waits for given (address, sequence number,
    signature) transaction. *)
Definition WaitForTransaction (fuel : nat) (w : world) (address : string)
  (seq : Z) (signature : string) (expirationTimeSec : Z) (timeout : Z)
  : world * option (option Transaction * option error) :=
  WaitForTransaction_loop fuel w 0 address seq signature expirationTimeSec
    timeout.

(** The number of iterations after which the loop counter has reached
    [timeout], when the counter does not overflow. *)
Definition iterations (timeout : Z) : nat :=
  Z.to_nat ((timeout + step - 1) / step).

(** What an iteration returns for a transaction [t] that the lookup
    found. *)
Definition found_outcome (t : Transaction) (signature : string)
  : option Transaction * option error :=
  if negb (String.eqb (txnSignature t) signature)
  then (None, Some ErrSignature)
  else if negb (String.eqb (vmStatusType (txnVmStatus t)) VmStatusExecuted)
  then (None, Some (ErrExecution (txnVmStatus t)))
  else (Some t, None).

(** The result is the error of the last line of [WaitForTransaction]. *)
Definition is_timeout_error (r : option Transaction * option error) : bool :=
  match r with
  | (None, Some (ErrTimeout _)) => true
  | _ => false
  end.

(** The loop after [n] iterations in each of which the lookup returned
    no error and no transaction and the expiration test was false (so
    that the iteration ended with [time.Sleep(step)]), started with the
    world [w] and the counter [i]; [None] when one of the [n] iterations
    is not entered or ends otherwise. *)
Fixpoint quiet_polls (n : nat) (w : world) (i : Z) (address : string)
  (seq : Z) (expirationTimeSec : Z) (timeout : Z) : option (world * Z) :=
  match n with
  | O => Some (w, i)
  | S n' =>
    if i <? timeout then
      match GetAccountTransaction w address seq true with
      | (w1, (None, None)) =>
        if mul_uint64 expirationTimeSec 1000000
           <=? TimestampUsec (LastResponseLedgerState (self w1))
        then None
        else quiet_polls n' (Sleep w1 step) (add_int64 i step) address seq
               expirationTimeSec timeout
      | _ => None
      end
    else None
  end.

(** *** The interface [Client] *)

(** The methods that go through [call], with their arguments. *)
Inductive rpc_method : Type :=
| MGetCurrencies
| MGetMetadata
| MGetMetadataByVersion (version : Z)
| MGetAccount (address : string)
| MGetAccountTransaction (address : string) (sequenceNum : Z)
    (includeEvent : bool)
| MGetAccountTransactions (address : string) (start limit : Z)
    (includeEvent : bool)
| MGetTransactions (startVersion limit : Z) (includeEvent : bool)
| MGetEvents (key : string) (start limit : Z)
| MSubmit (data : string).

(** What such a method returns besides its error. *)
Inductive reply : Type :=
| RCurrencies (r : list CurrencyInfo)
| RMetadata (r : option Metadata)
| RAccount (r : option Account)
| RTransaction (r : option Transaction)
| RTransactions (r : list Transaction)
| REvents (r : list Event)
| RNothing.

(** The reply is Go's [nil] (or, for [Submit], there is none). *)
Definition reply_is_nil (r : reply) : bool :=
  match r with
  | RCurrencies [] | RTransactions [] | REvents [] => true
  | RMetadata None | RAccount None | RTransaction None => true
  | RNothing => true
  | _ => false
  end.

Definition invoke (m : rpc_method) (w : world)
  : world * (reply * option error) :=
  match m with
  | MGetCurrencies =>
    let '(w', (r, e)) := GetCurrencies w in (w', (RCurrencies r, e))
  | MGetMetadata =>
    let '(w', (r, e)) := GetMetadata w in (w', (RMetadata r, e))
  | MGetMetadataByVersion v =>
    let '(w', (r, e)) := GetMetadataByVersion w v in (w', (RMetadata r, e))
  | MGetAccount a =>
    let '(w', (r, e)) := GetAccount w a in (w', (RAccount r, e))
  | MGetAccountTransaction a s b =>
    let '(w', (r, e)) := GetAccountTransaction w a s b in
    (w', (RTransaction r, e))
  | MGetAccountTransactions a s l b =>
    let '(w', (r, e)) := GetAccountTransactions w a s l b in
    (w', (RTransactions r, e))
  | MGetTransactions s l b =>
    let '(w', (r, e)) := GetTransactions w s l b in
    (w', (RTransactions r, e))
  | MGetEvents k s l =>
    let '(w', (r, e)) := GetEvents w k s l in (w', (REvents r, e))
  | MSubmit d =>
    let '(w', e) := Submit w d in (w', (RNothing, e))
  end.

(** The request a method sends. *)
Definition request_of (m : rpc_method) : Request :=
  match m with
  | MGetCurrencies => NewRequest Method.GetCurrencies []
  | MGetMetadata => NewRequest Method.GetMetadata []
  | MGetMetadataByVersion v => NewRequest Method.GetMetadata [PUint64 v]
  | MGetAccount a => NewRequest Method.GetAccount [PAddress a]
  | MGetAccountTransaction a s b =>
    NewRequest Method.GetAccountTransaction
      [PAddress a; PUint64 s; PBool b]
  | MGetAccountTransactions a s l b =>
    NewRequest Method.GetAccountTransactions
      [PAddress a; PUint64 s; PUint64 l; PBool b]
  | MGetTransactions s l b =>
    NewRequest Method.GetTransactions [PUint64 s; PUint64 l; PBool b]
  | MGetEvents k s l =>
    NewRequest Method.GetEvents [PString k; PUint64 s; PUint64 l]
  | MSubmit d => NewRequest Method.Submit [PString d]
  end.

(** The method [m], called in the world [w], returns the error [err] and a
    nil reply, and leaves the client as it was. *)
Definition rejected_with (m : rpc_method) (w : world) (err : error) : Prop :=
  snd (snd (invoke m w)) = Some err /\
  reply_is_nil (fst (snd (invoke m w))) = true /\
  self (fst (invoke m w)) = self w.

(** Every method of the interface [Client]. *)
Inductive operation : Type :=
| OpRpc (m : rpc_method)
| OpWaitForTransaction (address : string) (seq : Z) (signature : string)
    (expirationTimeSec : Z) (timeout : Z)
| OpLastResponseLedgerState
| OpUpdateLastResponseLedgerState (state : LedgerState).

(** The operations that write the stored state only through
    [validateAndUpdateState]: all but the setter. *)
Definition validating (o : operation) : bool :=
  match o with
  | OpUpdateLastResponseLedgerState _ => false
  | _ => true
  end.

(** The world after an operation; [fuel] bounds the iterations of
    [WaitForTransaction] and the world is the one reached when the
    operation returns or the fuel is used up. *)
Definition run (fuel : nat) (o : operation) (w : world) : world :=
  match o with
  | OpRpc m => fst (invoke m w)
  | OpWaitForTransaction a s sg e t =>
    fst (WaitForTransaction fuel w a s sg e t)
  | OpLastResponseLedgerState => w
  | OpUpdateLastResponseLedgerState st =>
    set_self w (UpdateLastResponseLedgerState (self w) st)
  end.

Definition run_all (fuel : nat) (os : list operation) (w : world) : world :=
  fold_left (fun w o => run fuel o w) os w.

(** The states stored after each of a sequence of updates through
    [validateAndUpdateState], oldest first. *)
Fixpoint states_after (c : client) (updates : list LedgerState)
  : list LedgerState :=
  match updates with
  | [] => []
  | s :: rest =>
    let c' := fst (validateAndUpdateState c s) in
    last c' :: states_after c' rest
  end.

End Model.

(** ** The helpers of the client's test

    [waitAccountSequence] of the test file polls [GetAccount] for the
    account that mints, until its sequence number has reached [seq].  A Go
    panic ends the function with a value: the error of the lookup, the
    run-time error of reading a field through a nil pointer, or the message
    of the explicit [panic] after the loop. *)

(** [account.SequenceNumber], a [uint64]. *)
Class AccountData `{Ext : External} : Type :=
  SequenceNumber : Account -> Z.

Section TestSupport.
Context `{Ext : External} {Rpc : JsonRpcClient} {Dec : Decoders}
        {Acc : AccountData}.

Inductive panic_value : Type :=
| PanicError (e : error)
| PanicNilDereference
| PanicMessage (s : string).

Definition mint_address : string := "000000000000000000000000000000DD".

(** The loop [for i := 0; i < 100; i++], by the number [100 - i] of
    iterations that remain; [None] is the normal return. *)
Fixpoint waitAccountSequence_loop (remaining : nat) (w : world) (seq : Z)
  : world * option panic_value :=
  match remaining with
  | O => (w, Some (PanicMessage "waiting for mint timeout"))
  | S remaining' =>
    let '(w1, (account, err)) := GetAccount w mint_address in
    match err with
    | Some e => (w1, Some (PanicError e))
    | None =>
      match account with
      | None => (w1, Some PanicNilDereference)
      | Some a =>
        if SequenceNumber a >=? wrap_uint64 seq then (w1, None)
        else waitAccountSequence_loop remaining'
               (Sleep w1 (100 * Millisecond)) seq
      end
    end
  end.

Definition waitAccountSequence (w : world) (seq : Z)
  : world * option panic_value :=
  waitAccountSequence_loop 100 w seq.

End TestSupport.

(** [a] is not ahead of [b] in either field. *)
Definition ledger_le (a b : LedgerState) : Prop :=
  Version a <= Version b /\ TimestampUsec a <= TimestampUsec b.

(** [state] is behind [lastv] in one of the two fields. *)
Definition behind (state lastv : LedgerState) : Prop :=
  Version state < Version lastv \/ TimestampUsec state < TimestampUsec lastv.

(** Consecutive elements of a list of states never go back. *)
Fixpoint non_decreasing (prev : LedgerState) (l : list LedgerState) : Prop :=
  match l with
  | [] => True
  | s :: rest => ledger_le prev s /\ non_decreasing s rest
  end.

(** ** A concrete collaborator

    A small instance of the parameters, in the manner of a test double: a
    transaction is its signature and the type of its VM status, the raw
    result of a response is the transaction it carries, if any, and a
    server is a function from the index of the call to its outcome. *)

Module Fixture.
#[local] Open Scope string_scope.

Record Txn : Type := mkTxn {
  sig : string;
  vm : string
}.

#[export] Instance ext : External := {|
  ResponseError := string;
  ForeignError := string;
  RawMessage := option Txn;
  CurrencyInfo := unit;
  Metadata := unit;
  Account := unit;
  Event := unit;
  Transaction := Txn;
  VmStatus := string;
  zeroMetadata := tt;
  zeroAccount := tt;
  zeroTransaction := mkTxn "" "";
  txnSignature := sig;
  txnVmStatus := vm;
  vmStatusType := fun s => s
|}.

(** A [null] result leaves [*ret] alone and reports [(false, nil)]. *)
Definition decode_txn : Unmarshal Txn :=
  fun resp ret =>
    match Result resp with
    | Some t => (t, (true, None))
    | None => (ret, (false, None))
    end.

Definition decode_txns : Unmarshal (list Txn) :=
  fun resp ret =>
    match Result resp with
    | Some t => ([t], (true, None))
    | None => (ret, (false, None))
    end.

Definition decode_skip {T : Type} : Unmarshal T :=
  fun _ ret => (ret, (false, None)).

#[export] Instance dec : Decoders := {|
  dec_currencies := decode_skip;
  dec_metadata := decode_skip;
  dec_account := decode_skip;
  dec_transaction := decode_txn;
  dec_transactions := decode_txns;
  dec_events := decode_skip;
  dec_nil := decode_skip
|}.

(** A response of chain [id] at ledger state ([ts], [ver]). *)
Definition resp (id ts ver : Z) (e : option string) (r : option Txn)
  : Response :=
  mkResponse id ts ver e r.

(** The server answers the calls from a script; after the script it
    repeats [dflt]. *)
Definition scripted (script : list (string + Response))
  (dflt : string + Response) : JsonRpcClient :=
  fun n _ => nth n script dflt.

Definition fresh (id : Z) : world :=
  mkWorld (mkClient id (mkLedgerState 0 0)) 0 [].

Definition at_state (id ts ver : Z) : world :=
  mkWorld (mkClient id (mkLedgerState ts ver)) 0 [].

(** Servers of chain 2. *)

(** No transaction, ever, at a fixed ledger state. *)
Definition idle (ts ver : Z) : JsonRpcClient :=
  scripted [] (inr (resp 2 ts ver None None)).

(** The transport fails. *)
Definition down : JsonRpcClient :=
  scripted [] (inl "connection refused").

(** One empty answer, then the transaction signed "abc", executed. *)
Definition lands_second : JsonRpcClient :=
  scripted [inr (resp 2 5 2 None None)]
           (inr (resp 2 6 3 None (Some (mkTxn "abc" "executed")))).

(** The ledger clock reaches second 1000 at the second answer. *)
Definition clock_reaches_1000 : JsonRpcClient :=
  scripted [inr (resp 2 999999999 1 None None)]
           (inr (resp 2 1000000000 2 None None)).

(** One empty answer, then the transport fails. *)
Definition fails_second : JsonRpcClient :=
  scripted [inr (resp 2 5 2 None None)] (inl "connection refused").

(** A response of chain 4 with an error of its own. *)
Definition other_chain : JsonRpcClient :=
  scripted [] (inr (resp 4 7 7 (Some "server error") None)).

(** A response of chain 2 with an error of its own. *)
Definition erring : JsonRpcClient :=
  scripted [] (inr (resp 2 7 7 (Some "server error") None)).

End Fixture.

(** A collaborator whose accounts are their sequence numbers, for the
    helper of the test. *)
Module MintFixture.
#[local] Open Scope string_scope.

Definition ext : External := {|
  ResponseError := string;
  ForeignError := string;
  RawMessage := option Z;
  CurrencyInfo := unit;
  Metadata := unit;
  Account := Z;
  Event := unit;
  Transaction := unit;
  VmStatus := string;
  zeroMetadata := tt;
  zeroAccount := 0;
  zeroTransaction := tt;
  txnSignature := fun _ => "";
  txnVmStatus := fun _ => "";
  vmStatusType := fun s => s
|}.

Definition decode_account : Unmarshal (Ext := ext) Z :=
  fun resp ret =>
    match Result resp with
    | Some n => (n, (true, None))
    | None => (ret, (false, None))
    end.

Definition decode_skip {T : Type} : Unmarshal (Ext := ext) T :=
  fun _ ret => (ret, (false, None)).

Definition dec : Decoders (Ext := ext) := {|
  dec_currencies := decode_skip;
  dec_metadata := decode_skip;
  dec_account := decode_account;
  dec_transaction := decode_skip;
  dec_transactions := decode_skip;
  dec_events := decode_skip;
  dec_nil := decode_skip
|}.

Definition acc : AccountData (Ext := ext) := fun n => n.

(** A response of chain 2 at ledger state ([n], [n]). *)
Definition resp (n : Z) (r : option Z) : Response (Ext := ext) :=
  @mkResponse ext 2 n n None r.

(** The account has sequence number [k] at the [k]-th call. *)
Definition minting : JsonRpcClient (Ext := ext) :=
  fun n _ => inr (resp (Z.of_nat n) (Some (Z.of_nat n))).

(** The account never moves. *)
Definition stuck : JsonRpcClient (Ext := ext) :=
  fun n _ => inr (resp (Z.of_nat n) (Some 0)).

Definition fresh : world := mkWorld (NewWithJsonRpcClient 2) 0 [].

End MintFixture.

(** ** The order on ledger states *)

Lemma ledger_le_refl (a : LedgerState) : ledger_le a a.
Proof. unfold ledger_le; lia. Qed.

Lemma ledger_le_trans (a b c : LedgerState) :
  ledger_le a b -> ledger_le b c -> ledger_le a c.
Proof. unfold ledger_le; lia. Qed.

(** ** Machine arithmetic *)

Lemma mul_uint64_exact (a b : Z) :
  0 <= a * b < 2 ^ 64 -> mul_uint64 a b = a * b.
Proof. intros H. unfold mul_uint64, wrap_uint64. now apply Z.mod_small. Qed.

Lemma mul_uint64_range (a b : Z) : is_uint64 (mul_uint64 a b).
Proof.
  unfold is_uint64, mul_uint64, wrap_uint64. apply Z.mod_pos_bound. lia.
Qed.

Lemma add_int64_exact (a b : Z) :
  - 2 ^ 63 <= a + b < 2 ^ 63 -> add_int64 a b = a + b.
Proof.
  intros H. unfold add_int64, wrap_int64.
  rewrite Z.mod_small; lia.
Qed.

Lemma to_byte_exact (z : Z) : is_byte z -> to_byte z = z.
Proof. intros H. unfold to_byte. now apply Z.mod_small. Qed.

Section Guard.
Context `{Ext : External}.

(** ** The ledger-state guard *)

Lemma validateAndUpdateState_rejects (c : client) (state : LedgerState) :
  behind state (last c) ->
  fst (validateAndUpdateState c state) = c /\
  exists e, snd (validateAndUpdateState c state) = Some e.
Proof.
  unfold behind, validateAndUpdateState, LastResponseLedgerState.
  intros H.
  destruct (Z.eqb_spec (Version (last c)) (Version state)) as [Ev | Ev];
    destruct (Z.eqb_spec (TimestampUsec (last c)) (TimestampUsec state))
      as [Et | Et]; cbn [andb]; try lia;
    destruct (Z.gtb_spec (Version (last c)) (Version state));
    destruct (Z.gtb_spec (TimestampUsec (last c)) (TimestampUsec state));
    cbn [fst snd]; try lia; eauto.
Qed.

(** X6: which error a rejection carries.  The version is compared first: a
    candidate with a smaller version gets the stale-version error, whatever
    its timestamp; one whose version is not smaller and whose timestamp is
    gets the stale-timestamp error.  The error carries the stored and the
    candidate value, and the client is unchanged. *)
Lemma validateAndUpdateState_stale (c : client) (state : LedgerState) :
  (Version state < Version (last c) ->
   validateAndUpdateState c state
   = (c, Some (ErrStale "version" (Version (last c)) (Version state)))) /\
  (Version (last c) <= Version state ->
   TimestampUsec state < TimestampUsec (last c) ->
   validateAndUpdateState c state
   = (c, Some (ErrStale "timestamp(usec)" (TimestampUsec (last c))
                        (TimestampUsec state)))).
Proof.
  unfold validateAndUpdateState, LastResponseLedgerState. split.
  - intros Hv.
    destruct (Z.eqb_spec (Version (last c)) (Version state)); [lia |].
    cbn [andb].
    destruct (Z.gtb_spec (Version (last c)) (Version state));
      [reflexivity | lia].
  - intros Hv Ht.
    destruct (Z.eqb_spec (TimestampUsec (last c)) (TimestampUsec state));
      [lia |].
    rewrite andb_false_r.
    destruct (Z.gtb_spec (Version (last c)) (Version state)); [lia |].
    destruct (Z.gtb_spec (TimestampUsec (last c)) (TimestampUsec state));
      [reflexivity | lia].
Qed.

Lemma validateAndUpdateState_accepts (c : client) (state : LedgerState) :
  ~ behind state (last c) ->
  validateAndUpdateState c state
  = (UpdateLastResponseLedgerState c state, None).
Proof.
  unfold behind, validateAndUpdateState, LastResponseLedgerState.
  intros H.
  destruct (Z.eqb_spec (Version (last c)) (Version state)) as [Ev | Ev];
    destruct (Z.eqb_spec (TimestampUsec (last c)) (TimestampUsec state))
      as [Et | Et]; cbn [andb];
    try (destruct (Z.gtb_spec (Version (last c)) (Version state));
         destruct (Z.gtb_spec (TimestampUsec (last c))
                              (TimestampUsec state));
         try lia; reflexivity).
  unfold UpdateLastResponseLedgerState.
  destruct c as [id [t v]], state as [t' v']; cbn in *. congruence.
Qed.

Lemma behind_dec (state lastv : LedgerState) :
  behind state lastv \/ ~ behind state lastv.
Proof. unfold behind; lia. Qed.

Lemma validateAndUpdateState_error_iff (c : client) (state : LedgerState) :
  snd (validateAndUpdateState c state) <> None <-> behind state (last c).
Proof.
  split.
  - intros H. destruct (behind_dec state (last c)) as [B | B]; [exact B |].
    rewrite (validateAndUpdateState_accepts _ _ B) in H. now elim H.
  - intros B. destruct (validateAndUpdateState_rejects _ _ B) as [_ [e E]].
    rewrite E. discriminate.
Qed.

Lemma validateAndUpdateState_chainID (c : client) (state : LedgerState) :
  chainID (fst (validateAndUpdateState c state)) = chainID c.
Proof.
  destruct (behind_dec state (last c)) as [B | B].
  - now destruct (validateAndUpdateState_rejects _ _ B) as [-> _].
  - now rewrite (validateAndUpdateState_accepts _ _ B).
Qed.

Lemma validateAndUpdateState_le (c : client) (state : LedgerState) :
  ledger_le (last c) (last (fst (validateAndUpdateState c state))).
Proof.
  destruct (behind_dec state (last c)) as [B | B].
  - destruct (validateAndUpdateState_rejects _ _ B) as [-> _].
    apply ledger_le_refl.
  - rewrite (validateAndUpdateState_accepts _ _ B). cbn.
    unfold behind, ledger_le in *. lia.
Qed.

Lemma states_after_non_decreasing (updates : list LedgerState) :
  forall c : client, non_decreasing (last c) (states_after c updates).
Proof.
  induction updates as [| s rest IH]; intros c; cbn [states_after
    non_decreasing]; [exact I |].
  split; [apply validateAndUpdateState_le | apply IH].
Qed.

(** C1: along every sequence of updates applied through
    [validateAndUpdateState] the stored version and timestamp never
    decrease; a candidate is rejected with an error exactly when its
    version or its timestamp is smaller than the stored one, and then the
    client is unchanged; a candidate that is not rejected is the stored
    state afterwards. *)
Theorem validateAndUpdateState_monotone :
  forall (c : client) (updates : list LedgerState),
    non_decreasing (last c) (states_after c updates) /\
    forall state : LedgerState,
      (behind state (last c) ->
       fst (validateAndUpdateState c state) = c /\
       exists e, snd (validateAndUpdateState c state) = Some e) /\
      (snd (validateAndUpdateState c state) <> None ->
       behind state (last c)) /\
      (snd (validateAndUpdateState c state) = None ->
       last (fst (validateAndUpdateState c state)) = state).
Proof.
  intros c updates. split; [apply states_after_non_decreasing |].
  intros state. split; [apply validateAndUpdateState_rejects |].
  split; [apply validateAndUpdateState_error_iff |].
  intros E. destruct (behind_dec state (last c)) as [B | B].
  - destruct (validateAndUpdateState_rejects _ _ B) as [_ [e E']].
    congruence.
  - now rewrite (validateAndUpdateState_accepts _ _ B).
Qed.

(** C8: a candidate equal to the stored state in both fields is accepted
    and leaves the client as it is; and a candidate that was accepted is
    accepted again, with no further change, when it is applied a second
    time. *)
Theorem validateAndUpdateState_equal_noop :
  forall (c : client) (state : LedgerState),
    (Version state = Version (last c) ->
     TimestampUsec state = TimestampUsec (last c) ->
     validateAndUpdateState c state = (c, None)) /\
    (forall c' : client,
       validateAndUpdateState c state = (c', None) ->
       validateAndUpdateState c' state = (c', None)).
Proof.
  assert (noop : forall c state,
    Version state = Version (last c) ->
    TimestampUsec state = TimestampUsec (last c) ->
    validateAndUpdateState c state = (c, None)).
  { intros c state Ev Et.
    unfold validateAndUpdateState, LastResponseLedgerState.
    rewrite Ev, Et, !Z.eqb_refl. reflexivity. }
  intros c state. split; [apply noop |].
  intros c' E. apply noop.
  - destruct (behind_dec state (last c)) as [B | B].
    + destruct (validateAndUpdateState_rejects _ _ B) as [_ [e E']].
      rewrite E in E'. discriminate.
    + rewrite (validateAndUpdateState_accepts _ _ B) in E.
      injection E as <-. reflexivity.
  - destruct (behind_dec state (last c)) as [B | B].
    + destruct (validateAndUpdateState_rejects _ _ B) as [_ [e E']].
      rewrite E in E'. discriminate.
    + rewrite (validateAndUpdateState_accepts _ _ B) in E.
      injection E as <-. reflexivity.
Qed.

End Guard.

Section Calls.
Context `{Ext : External} {Rpc : JsonRpcClient} {Dec : Decoders}.

(** ** The validation in [call] *)

Lemma call_transport_error {T : Type} {U : Unmarshal T} (w : world)
  (method : string) (ret : T) (params : list Param) (err : ForeignError) :
  Call (calls w) (NewRequest method params) = inl err ->
  call w method ret params = (called w, (ret, (false, Some (ErrForeign err)))).
Proof. intros H. unfold call. now rewrite H. Qed.

Lemma call_response {T : Type} {U : Unmarshal T} (w : world)
  (method : string) (ret : T) (params : list Param) (resp : Response) :
  Call (calls w) (NewRequest method params) = inr resp ->
  call w method ret params =
  match validateChainID (self w) (to_byte (LibraChainID resp)) with
  | Some err => (called w, (ret, (false, Some err)))
  | None =>
    match validateAndUpdateState (self w) (candidate resp) with
    | (c2, Some err) => (set_self (called w) c2, (ret, (false, Some err)))
    | (c2, None) =>
      match Error resp with
      | Some e =>
        (set_self (called w) c2, (ret, (false, Some (ErrResponse e))))
      | None =>
        let '(ret', (ok, e)) := UnmarshalResult resp ret in
        (set_self (called w) c2, (ret', (ok, option_map ErrForeign e)))
      end
    end
  end.
Proof.
  intros H. unfold call, candidate, called. rewrite H. cbn [self].
  destruct (validateChainID _ _); [reflexivity |].
  destruct (validateAndUpdateState _ _) as [c2 [e |]]; reflexivity.
Qed.

Lemma validateChainID_mismatch (c : client) (id : Z) :
  id <> chainID c -> validateChainID c id = Some (ErrChainID (chainID c) id).
Proof.
  intros H. unfold validateChainID.
  destruct (Z.eqb_spec (chainID c) id); [congruence | reflexivity].
Qed.

(** C4: when the chain identity of the response (the byte that [call]
    passes to [validateChainID]) differs from the client's, [call] fails
    with the chain-id-mismatch error whatever the version and timestamp of
    the response are: the staleness check is not reached, [*ret] is not
    written and the client, with its stored ledger state, is unchanged. *)
Theorem call_chain_id_mismatch :
  forall (T : Type) (U : Unmarshal T) (w : world) (method : string)
         (ret : T) (params : list Param) (resp : Response),
    Call (calls w) (NewRequest method params) = inr resp ->
    to_byte (LibraChainID resp) <> chainID (self w) ->
    call w method ret params
    = (called w,
       (ret, (false, Some (ErrChainID (chainID (self w))
                                      (to_byte (LibraChainID resp)))))) /\
    self (fst (call w method ret params)) = self w.
Proof.
  intros T U w method ret params resp Hcall Hne.
  rewrite (call_response _ _ _ _ _ Hcall).
  rewrite (validateChainID_mismatch _ _ Hne). split; reflexivity.
Qed.

(** The same for a response whose chain identity is a byte already, as
    the transport contract has it. *)
Corollary call_chain_id_mismatch_byte (T : Type) (U : Unmarshal T)
  (w : world) (method : string) (ret : T) (params : list Param)
  (resp : Response) :
  Call (calls w) (NewRequest method params) = inr resp ->
  is_byte (LibraChainID resp) ->
  LibraChainID resp <> chainID (self w) ->
  call w method ret params
  = (called w,
     (ret, (false, Some (ErrChainID (chainID (self w))
                                    (LibraChainID resp))))).
Proof.
  intros Hcall Hb Hne.
  rewrite (call_response _ _ _ _ _ Hcall), (to_byte_exact _ Hb).
  now rewrite (validateChainID_mismatch _ _ Hne).
Qed.

Lemma call_validation_rejects {T : Type} {U : Unmarshal T} (w : world)
  (method : string) (ret : T) (params : list Param) (resp : Response)
  (err : error) :
  Call (calls w) (NewRequest method params) = inr resp ->
  validation_error (self w) resp = Some err ->
  call w method ret params = (called w, (ret, (false, Some err))).
Proof.
  intros Hcall Hg. rewrite (call_response _ _ _ _ _ Hcall).
  unfold validation_error in Hg.
  destruct (validateChainID _ _) as [e |]; [congruence |].
  destruct (behind_dec (candidate resp) (last (self w))) as [B | B].
  - destruct (validateAndUpdateState_rejects _ _ B) as [Hc _].
    destruct (validateAndUpdateState _ _) as [c2 oe].
    cbn [fst snd] in Hc, Hg. subst c2 oe.
    now destruct w as [[? ?] ? ?].
  - rewrite (validateAndUpdateState_accepts _ _ B) in Hg. discriminate.
Qed.

Lemma call_validation_passes {T : Type} {U : Unmarshal T} (w : world)
  (method : string) (ret : T) (params : list Param) (resp : Response) :
  Call (calls w) (NewRequest method params) = inr resp ->
  validation_error (self w) resp = None ->
  call w method ret params =
  let w2 :=
    set_self (called w)
             (UpdateLastResponseLedgerState (self w) (candidate resp)) in
  match Error resp with
  | Some e => (w2, (ret, (false, Some (ErrResponse e))))
  | None =>
    let '(ret', (ok, e)) := UnmarshalResult resp ret in
    (w2, (ret', (ok, option_map ErrForeign e)))
  end.
Proof.
  intros Hcall Hg. rewrite (call_response _ _ _ _ _ Hcall).
  unfold validation_error in Hg.
  destruct (validateChainID _ _) as [e |]; [discriminate |].
  destruct (behind_dec (candidate resp) (last (self w))) as [B | B].
  - destruct (validateAndUpdateState_rejects _ _ B) as [_ [e He]].
    congruence.
  - now rewrite (validateAndUpdateState_accepts _ _ B).
Qed.

End Calls.

Section Methods.
Context `{Ext : External} {Rpc : JsonRpcClient} {Dec : Decoders}.

(** ** Every method validates the response first *)

Ltac unfold_methods :=
  unfold GetCurrencies, GetMetadata, GetMetadataByVersion, GetAccount,
    GetAccountTransaction, GetAccountTransactions, GetTransactions,
    GetEvents, Submit.

Lemma invoke_validation_rejects (m : rpc_method) (w : world) (resp : Response)
  (err : error) :
  Call (calls w) (request_of m) = inr resp ->
  validation_error (self w) resp = Some err ->
  rejected_with m w err.
Proof.
  intros Hcall Hg. unfold rejected_with.
  destruct m; cbn [invoke request_of] in *; unfold_methods;
    rewrite (call_validation_rejects _ _ _ _ _ _ Hcall Hg);
    cbn; repeat split.
Qed.

Lemma invoke_validation_passes (m : rpc_method) (w : world) (resp : Response) :
  Call (calls w) (request_of m) = inr resp ->
  validation_error (self w) resp = None ->
  self (fst (invoke m w))
  = UpdateLastResponseLedgerState (self w) (candidate resp) /\
  forall e : ResponseError,
    Error resp = Some e ->
    snd (snd (invoke m w)) = Some (ErrResponse e) /\
    reply_is_nil (fst (snd (invoke m w))) = true.
Proof.
  intros Hcall Hg.
  destruct m; cbn [invoke request_of] in *; unfold_methods;
    rewrite (call_validation_passes _ _ _ _ _ Hcall Hg); cbv zeta;
    (destruct (Error resp) as [re |];
     [ cbn; split; [reflexivity | intros e [= <-]; split; reflexivity]
     | destruct (UnmarshalResult resp _) as [ret' [ok e']];
       destruct ok, e'; cbn; (split; [reflexivity | discriminate]) ]).
Qed.

(** C7: for every method that goes through [call] and every response the
    transport hands back, the chain-id check and the staleness check come
    first.  When the chain-id check fails, or passes and the staleness
    check fails, the method returns that error with a nil reply and the
    client is unchanged; when both pass, the stored ledger state is the
    candidate of the response, also when the response carries an error of
    its own, which is then what the method returns, with a nil reply. *)
Theorem invoke_validates_first :
  forall (m : rpc_method) (w : world) (resp : Response),
    Call (calls w) (request_of m) = inr resp ->
    (forall err : error,
       validateChainID (self w) (to_byte (LibraChainID resp)) = Some err ->
       rejected_with m w err) /\
    (validateChainID (self w) (to_byte (LibraChainID resp)) = None ->
     forall err : error,
       snd (validateAndUpdateState (self w) (candidate resp)) = Some err ->
       rejected_with m w err) /\
    (validateChainID (self w) (to_byte (LibraChainID resp)) = None ->
     snd (validateAndUpdateState (self w) (candidate resp)) = None ->
     last (self (fst (invoke m w))) = candidate resp /\
     chainID (self (fst (invoke m w))) = chainID (self w) /\
     forall e : ResponseError,
       Error resp = Some e ->
       snd (snd (invoke m w)) = Some (ErrResponse e) /\
       reply_is_nil (fst (snd (invoke m w))) = true).
Proof.
  intros m w resp Hcall. split; [| split].
  - intros err Hc. apply (invoke_validation_rejects m w resp err Hcall).
    unfold validation_error. now rewrite Hc.
  - intros Hc err Hs. apply (invoke_validation_rejects m w resp err Hcall).
    unfold validation_error. now rewrite Hc.
  - intros Hc Hs.
    assert (Hg : validation_error (self w) resp = None)
      by (unfold validation_error; now rewrite Hc).
    destruct (invoke_validation_passes m w resp Hcall Hg) as [Hself Hr].
    rewrite Hself. split; [reflexivity | split; [reflexivity | exact Hr]].
Qed.

End Methods.

Section Wait.
Context `{Ext : External} {Rpc : JsonRpcClient} {Dec : Decoders}.

(** ** What a call does to the world *)

Lemma call_world {T : Type} {U : Unmarshal T} (w : world) (method : string)
  (ret : T) (params : list Param) :
  calls (fst (call w method ret params)) = S (calls w) /\
  slept (fst (call w method ret params)) = slept w /\
  chainID (self (fst (call w method ret params))) = chainID (self w) /\
  ledger_le (last (self w)) (last (self (fst (call w method ret params)))).
Proof.
  unfold call.
  destruct (Call _ _) as [err | resp]; cbn [fst self calls slept].
  { auto using ledger_le_refl. }
  destruct (validateChainID _ _); cbn [fst self calls slept].
  { auto using ledger_le_refl. }
  pose proof (validateAndUpdateState_le (self w)
    (mkLedgerState (LibraLedgerTimestampusec resp)
                   (LibraLedgerVersion resp))) as Hle.
  pose proof (validateAndUpdateState_chainID (self w)
    (mkLedgerState (LibraLedgerTimestampusec resp)
                   (LibraLedgerVersion resp))) as Hid.
  destruct (validateAndUpdateState _ _) as [c2 [e |]];
    cbn [fst] in Hle, Hid.
  { cbn. auto. }
  destruct (Error resp); [cbn; auto |].
  destruct (UnmarshalResult resp ret) as [ret' [ok e]]. cbn. auto.
Qed.

Lemma call_error_not_timeout {T : Type} {U : Unmarshal T} (w : world)
  (method : string) (ret : T) (params : list Param) (t : Z) :
  snd (snd (snd (call w method ret params))) <> Some (ErrTimeout t).
Proof.
  unfold call, validateChainID, validateAndUpdateState.
  destruct (Call _ _) as [err | resp]; [cbn; discriminate |].
  destruct (negb _); [cbn; discriminate |].
  destruct (_ && _); cbn.
  - destruct (Error resp); [cbn; discriminate |].
    destruct (UnmarshalResult resp ret) as [ret' [ok [e |]]];
      cbn; discriminate.
  - destruct (_ >? _); [cbn; discriminate |].
    destruct (_ >? _); [cbn; discriminate |].
    destruct (Error resp); [cbn; discriminate |].
    destruct (UnmarshalResult resp ret) as [ret' [ok [e |]]];
      cbn; discriminate.
Qed.

Lemma GetAccountTransaction_world (w : world) (address : string) (seq : Z)
  (b : bool) :
  let w' := fst (GetAccountTransaction w address seq b) in
  calls w' = S (calls w) /\ slept w' = slept w /\
  chainID (self w') = chainID (self w) /\
  ledger_le (last (self w)) (last (self w')).
Proof.
  pose proof (call_world (T := Transaction) w Method.GetAccountTransaction
    zeroTransaction [PAddress address; PUint64 seq; PBool b]) as H.
  unfold GetAccountTransaction.
  destruct (call _ _ _ _) as [w' [ret [ok err]]].
  destruct ok; exact H.
Qed.

(** The lookup returns a transaction or an error, never both, and its
    error is never the timeout of the wait. *)
Lemma GetAccountTransaction_result (w w' : world) (address : string)
  (seq : Z) (b : bool) (txn : option Transaction) (err : option error) :
  GetAccountTransaction w address seq b = (w', (txn, err)) ->
  (txn = None \/ err = None) /\ forall t, err <> Some (ErrTimeout t).
Proof.
  pose proof (call_error_not_timeout (T := Transaction) w
    Method.GetAccountTransaction zeroTransaction
    [PAddress address; PUint64 seq; PBool b]) as Hn.
  unfold GetAccountTransaction.
  destruct (call _ _ _ _) as [w1 [ret [ok e]]]. cbn [snd] in Hn.
  destruct ok; cbn; intros [= <- <- <-]; split; auto; discriminate.
Qed.

(** ** One iteration *)

Section Iteration.
Variables (address : string) (seq : Z) (signature : string)
          (expirationTimeSec timeout : Z).

#[local] Abbreviation iter w :=
  (WaitForTransaction_iter w address seq signature expirationTimeSec).
#[local] Abbreviation loop fuel w i :=
  (WaitForTransaction_loop fuel w i address seq signature
     expirationTimeSec timeout).
#[local] Abbreviation quiet n w i :=
  (quiet_polls n w i address seq expirationTimeSec timeout).
#[local] Abbreviation expired w :=
  (mul_uint64 expirationTimeSec 1000000
   <=? TimestampUsec (LastResponseLedgerState (self w))).

Lemma iter_lookup_error (w w1 : world) (txn : option Transaction)
  (e : error) :
  GetAccountTransaction w address seq true = (w1, (txn, Some e)) ->
  iter w = (w1, Some (None, Some e)).
Proof.
  intros H. unfold WaitForTransaction_iter. now rewrite H.
Qed.

Lemma iter_found (w w1 : world) (t : Transaction) :
  GetAccountTransaction w address seq true = (w1, (Some t, None)) ->
  iter w = (w1, Some (found_outcome t signature)).
Proof.
  intros H. unfold WaitForTransaction_iter, found_outcome.
  rewrite H. destruct (negb _); [reflexivity |].
  destruct (negb _); reflexivity.
Qed.

Lemma iter_not_found (w w1 : world) :
  GetAccountTransaction w address seq true = (w1, (None, None)) ->
  iter w = if expired w1 then (w1, Some (None, Some ErrExpired))
           else (Sleep w1 step, None).
Proof.
  intros H. unfold WaitForTransaction_iter. now rewrite H.
Qed.

Lemma found_outcome_not_timeout (t : Transaction) (t' : Z) :
  found_outcome t signature <> (None, Some (ErrTimeout t')).
Proof.
  unfold found_outcome. destruct (negb _); [discriminate |].
  destruct (negb _); discriminate.
Qed.

(** An iteration that does not return is one whose lookup found
    nothing, without error, before the expiration. *)
Lemma iter_continues (w w' : world) :
  iter w = (w', None) ->
  exists w1,
    GetAccountTransaction w address seq true = (w1, (None, None)) /\
    expired w1 = false /\ w' = Sleep w1 step.
Proof.
  unfold WaitForTransaction_iter.
  destruct (GetAccountTransaction w address seq true)
    as [w1 [[t |] [e |]]]; try discriminate.
  - destruct (negb _); [discriminate |]. destruct (negb _); discriminate.
  - destruct (_ <=? _) eqn:E; [discriminate |].
    intros [= <-]. exists w1. auto.
Qed.

Lemma iter_returns_not_timeout (w w' : world)
  (r : option Transaction * option error) (t' : Z) :
  iter w = (w', Some r) -> r <> (None, Some (ErrTimeout t')).
Proof.
  unfold WaitForTransaction_iter.
  destruct (GetAccountTransaction w address seq true)
    as [w1 [txn err]] eqn:G.
  destruct (GetAccountTransaction_result _ _ _ _ _ _ _ G) as [_ Hn].
  destruct err as [e |].
  - intros [= <- <-] [= ->]. now apply (Hn t').
  - destruct txn as [t |].
    +           destruct (negb _); [intros [= <- <-]; discriminate |].
      destruct (negb _); intros [= <- <-]; discriminate.
    + destruct (_ <=? _); [intros [= <- <-]; discriminate | discriminate].
Qed.

(** ** The loop *)

Lemma loop_enter (fuel : nat) (w : world) (i : Z) :
  i < timeout ->
  loop (S fuel) w i =
  match iter w with
  | (w', Some r) => (w', Some r)
  | (w', None) => loop fuel w' (add_int64 i step)
  end.
Proof.
  intros H. cbn [WaitForTransaction_loop].
  destruct (Z.ltb_spec i timeout); [reflexivity | lia].
Qed.

Lemma loop_leave (fuel : nat) (w : world) (i : Z) :
  timeout <= i ->
  loop fuel w i = (w, Some (None, Some (ErrTimeout timeout))).
Proof.
  intros H.
  destruct fuel; cbn [WaitForTransaction_loop];
    destruct (Z.ltb_spec i timeout); try reflexivity; lia.
Qed.

(** After [n] quiet polls the loop is where [quiet_polls] says. *)
Lemma loop_quiet (n : nat) :
  forall (fuel : nat) (w w' : world) (i i' : Z),
    quiet n w i = Some (w', i') ->
    loop (n + fuel) w i = loop fuel w' i'.
Proof.
  induction n as [| n IH]; intros fuel w w' i i'.
  - cbn. now intros [= <- <-].
  - cbn [quiet_polls].
    destruct (Z.ltb_spec i timeout) as [Hlt | Hge]; [| discriminate].
    destruct (GetAccountTransaction w address seq true)
      as [w1 [[t |] [e |]]] eqn:G; try discriminate.
    destruct (_ <=? _) eqn:E; [discriminate |].
    intros Hq. cbn [Nat.add]. rewrite (loop_enter _ _ _ Hlt).
    rewrite (iter_not_found _ _ G), E.
    now apply IH.
Qed.

(** A wait that ends with the timeout has made quiet polls only. *)
Lemma loop_timeout_quiet (fuel : nat) :
  forall (w w' : world) (i t' : Z),
    loop fuel w i = (w', Some (None, Some (ErrTimeout t'))) ->
    exists (n : nat) (i' : Z),
      (n <= fuel)%nat /\ quiet n w i = Some (w', i') /\
      timeout <= i' /\ t' = timeout.
Proof.
  induction fuel as [| fuel IH]; intros w w' i t'.
  - cbn [WaitForTransaction_loop].
    destruct (Z.ltb_spec i timeout); [discriminate |].
    intros [= <- <-]. exists 0%nat, i. cbn. auto.
  - destruct (Z.lt_ge_cases i timeout) as [Hlt | Hge].
    + rewrite (loop_enter _ _ _ Hlt).
      destruct (iter w) as [w1 [r |]] eqn:It.
      * intros [= <- ->].
        now elim (iter_returns_not_timeout _ _ _ t' It).
      * intros HL. destruct (IH _ _ _ _ HL) as (n & i' & Hn & Hq & Hi & Ht).
        destruct (iter_continues _ _ It) as (w0 & G & E & ->).
        exists (S n), i'. repeat split; try lia; try assumption.
        cbn [quiet_polls].
        destruct (Z.ltb_spec i timeout); [| lia].
        rewrite G, E. exact Hq.
    + rewrite (loop_leave _ _ _ Hge). intros [= <- <-].
      exists 0%nat, i. cbn. repeat split; auto; lia.
Qed.

(** With a timeout that keeps the counter in range, [iterations timeout]
    iterations are enough for the loop to return. *)
Lemma loop_returns (fuel : nat) :
  forall (w : world) (i : Z),
    0 <= i -> timeout + step <= 2 ^ 63 ->
    timeout - i <= Z.of_nat fuel * step ->
    exists r, snd (loop fuel w i) = Some r.
Proof.
  induction fuel as [| fuel IH]; intros w i Hi Hmax Hfuel.
  - rewrite loop_leave by lia. cbn. eauto.
  - destruct (Z.lt_ge_cases i timeout) as [Hlt | Hge].
    + rewrite (loop_enter _ _ _ Hlt).
      destruct (iter w) as [w1 [r |]]; [cbn; eauto |].
      assert (Hs : step = 500000000) by reflexivity.
      rewrite add_int64_exact by lia.
      apply IH; lia.
    + rewrite loop_leave by lia. cbn. eauto.
Qed.

End Iteration.

End Wait.

Section Confirmation.
Context `{Ext : External} {Rpc : JsonRpcClient} {Dec : Decoders}.

(** ** The outcomes of [WaitForTransaction]

    A poll of a wait is named by the number [n] of quiet polls before it:
    [quiet_polls n w 0 ... = Some (w1, i1)] says that the loop reaches its
    [n+1]-th test with the world [w1] and the counter [i1], and
    [i1 < timeout] that the poll takes place. *)

Lemma found_outcome_success (t : Transaction) (signature : string) :
  found_outcome t signature = (Some t, None) <->
  txnSignature t = signature /\
  vmStatusType (txnVmStatus t) = VmStatusExecuted.
Proof.
  unfold found_outcome.
  destruct (String.eqb_spec (txnSignature t) signature) as [Es | Es];
    destruct (String.eqb_spec (vmStatusType (txnVmStatus t))
                              VmStatusExecuted) as [Ev | Ev];
    cbn [negb]; split; try discriminate; try tauto; auto.
Qed.

(** C2: at a poll whose lookup finds a transaction, the wait returns with
    the outcome of that transaction.  The outcome is the transaction
    itself, without error, if and only if its signature is the expected
    one and its VM status is "executed"; it is the signature-mismatch
    error whenever the signature differs, whatever the status; and it is
    the execution-failed error, with the status, when the signature
    matches and the status is not "executed". *)
Theorem WaitForTransaction_found :
  forall (n fuel : nat) (w w1 w2 : world) (i1 : Z) (address : string)
         (seq : Z) (signature : string) (expirationTimeSec timeout : Z)
         (t : Transaction),
    quiet_polls n w 0 address seq expirationTimeSec timeout
    = Some (w1, i1) ->
    i1 < timeout ->
    GetAccountTransaction w1 address seq true = (w2, (Some t, None)) ->
    exists r : option Transaction * option error,
      WaitForTransaction (n + S fuel) w address seq signature
        expirationTimeSec timeout = (w2, Some r) /\
      (r = (Some t, None) <->
       txnSignature t = signature /\
       vmStatusType (txnVmStatus t) = VmStatusExecuted) /\
      (txnSignature t <> signature -> r = (None, Some ErrSignature)) /\
      (txnSignature t = signature ->
       vmStatusType (txnVmStatus t) <> VmStatusExecuted ->
       r = (None, Some (ErrExecution (txnVmStatus t)))).
Proof.
  intros n fuel w w1 w2 i1 address seq signature e timeout t Hq Hlt G.
  exists (found_outcome t signature). split; [| split; [| split]].
  - unfold WaitForTransaction.
    rewrite (loop_quiet _ _ _ _ _ _ _ _ _ _ _ Hq).
    rewrite (loop_enter _ _ _ _ _ _ _ _ Hlt).
    now rewrite (iter_found _ _ _ _ _ _ _ G).
  - apply found_outcome_success.
  - intros Hs. unfold found_outcome.
    destruct (String.eqb_spec (txnSignature t) signature);
      [contradiction | reflexivity].
  - intros Hs Hv. unfold found_outcome.
    destruct (String.eqb_spec (txnSignature t) signature);
      [| contradiction].
    destruct (String.eqb_spec (vmStatusType (txnVmStatus t))
                              VmStatusExecuted);
      [contradiction | reflexivity].
Qed.

(** C3: at a poll whose lookup finds no transaction (and fails with no
    error), the iteration returns the expired error exactly when the
    product [expirationTimeSec * 1_000_000], as the code computes it on
    [uint64], is less than or equal to the timestamp of the ledger state
    the client has stored after that lookup; equality counts as expired.
    The poll takes place before the timeout ([i1 < timeout]), and when the
    test holds the wait returns the expired error there; when it does not
    hold, the iteration sleeps and the loop goes on.  For
    [expirationTimeSec] up to 18446744073709 the product is the exact
    one. *)
Theorem WaitForTransaction_expired :
  forall (n fuel : nat) (w w1 w2 : world) (i1 : Z) (address : string)
         (seq : Z) (signature : string) (expirationTimeSec timeout : Z),
    quiet_polls n w 0 address seq expirationTimeSec timeout
    = Some (w1, i1) ->
    i1 < timeout ->
    GetAccountTransaction w1 address seq true = (w2, (None, None)) ->
    (WaitForTransaction_iter w1 address seq signature expirationTimeSec
     = (w2, Some (None, Some ErrExpired)) <->
     mul_uint64 expirationTimeSec 1000000
     <= TimestampUsec (LastResponseLedgerState (self w2))) /\
    (mul_uint64 expirationTimeSec 1000000
     <= TimestampUsec (LastResponseLedgerState (self w2)) ->
     WaitForTransaction (n + S fuel) w address seq signature
       expirationTimeSec timeout = (w2, Some (None, Some ErrExpired))) /\
    (TimestampUsec (LastResponseLedgerState (self w2))
     < mul_uint64 expirationTimeSec 1000000 ->
     WaitForTransaction_iter w1 address seq signature expirationTimeSec
     = (Sleep w2 step, None) /\
     WaitForTransaction (n + S fuel) w address seq signature
       expirationTimeSec timeout
     = WaitForTransaction_loop fuel (Sleep w2 step) (add_int64 i1 step)
         address seq signature expirationTimeSec timeout) /\
    (0 <= expirationTimeSec <= 18446744073709 ->
     mul_uint64 expirationTimeSec 1000000 = expirationTimeSec * 1000000).
Proof.
  intros n fuel w w1 w2 i1 address seq signature e timeout Hq Hlt G.
  pose proof (iter_not_found address seq signature e _ _ G) as It.
  assert (HW : WaitForTransaction (n + S fuel) w address seq signature e
                 timeout
               = match WaitForTransaction_iter w1 address seq signature e
                 with
                 | (w', Some r) => (w', Some r)
                 | (w', None) =>
                   WaitForTransaction_loop fuel w' (add_int64 i1 step)
                     address seq signature e timeout
                 end).
  { unfold WaitForTransaction.
    rewrite (loop_quiet _ _ _ _ _ _ _ _ _ _ _ Hq).
    now rewrite (loop_enter _ _ _ _ _ _ _ _ Hlt). }
  rewrite HW, It.
  destruct (Z.leb_spec (mul_uint64 e 1000000)
              (TimestampUsec (LastResponseLedgerState (self w2))))
    as [Hle | Hgt].
  - split; [tauto |]. split; [auto |]. split; [lia |].
    intros [H0 H]. apply mul_uint64_exact. lia.
  - split; [split; [discriminate | lia] |]. split; [lia |].
    split; [auto |].
    intros [H0 H]. apply mul_uint64_exact. lia.
Qed.

(** C9: at a poll whose lookup returns an error, the wait returns that
    error, with no transaction, in the world the lookup left: the lookup
    was the one call of the poll, no call and no sleep follows it. *)
Theorem WaitForTransaction_lookup_error :
  forall (n fuel : nat) (w w1 w2 : world) (i1 : Z) (address : string)
         (seq : Z) (signature : string) (expirationTimeSec timeout : Z)
         (txn : option Transaction) (e : error),
    quiet_polls n w 0 address seq expirationTimeSec timeout
    = Some (w1, i1) ->
    i1 < timeout ->
    GetAccountTransaction w1 address seq true = (w2, (txn, Some e)) ->
    WaitForTransaction (n + S fuel) w address seq signature
      expirationTimeSec timeout = (w2, Some (None, Some e)) /\
    calls w2 = S (calls w1) /\
    slept w2 = slept w1.
Proof.
  intros n fuel w w1 w2 i1 address seq signature ex timeout txn e Hq Hlt G.
  split.
  - unfold WaitForTransaction.
    rewrite (loop_quiet _ _ _ _ _ _ _ _ _ _ _ Hq).
    rewrite (loop_enter _ _ _ _ _ _ _ _ Hlt).
    now rewrite (iter_lookup_error _ _ _ _ _ _ _ _ G).
  - pose proof (GetAccountTransaction_world w1 address seq true) as H.
    rewrite G in H. cbn in H. tauto.
Qed.

(** C6: a wait that returns the timeout error has polled [n] times, each
    poll finding no transaction, meeting no error and lying before the
    expiration, until the loop counter reached [timeout].  Conversely, a
    poll within the timeout whose lookup finds a transaction, or finds
    none when the expiration test holds, ends the wait there with the
    outcome of that poll, which is never the timeout error; and when all
    polls up to the timeout are quiet the wait does return the timeout
    error. *)
Theorem WaitForTransaction_timeout :
  forall (address : string) (seq : Z) (signature : string)
         (expirationTimeSec timeout : Z) (w : world),
    (forall (fuel : nat) (w' : world) (t' : Z),
       WaitForTransaction fuel w address seq signature expirationTimeSec
         timeout = (w', Some (None, Some (ErrTimeout t'))) ->
       exists (n : nat) (i' : Z),
         quiet_polls n w 0 address seq expirationTimeSec timeout
         = Some (w', i') /\ timeout <= i' /\ t' = timeout) /\
    (forall (n fuel : nat) (w1 w2 : world) (i1 : Z)
            (txn : option Transaction),
       quiet_polls n w 0 address seq expirationTimeSec timeout
       = Some (w1, i1) ->
       i1 < timeout ->
       GetAccountTransaction w1 address seq true = (w2, (txn, None)) ->
       txn <> None \/
       mul_uint64 expirationTimeSec 1000000
       <= TimestampUsec (LastResponseLedgerState (self w2)) ->
       exists r : option Transaction * option error,
         WaitForTransaction (n + S fuel) w address seq signature
           expirationTimeSec timeout = (w2, Some r) /\
         (forall t', r <> (None, Some (ErrTimeout t'))) /\
         r = match txn with
             | Some t => found_outcome t signature
             | None => (None, Some ErrExpired)
             end) /\
    (forall (n fuel : nat) (w' : world) (i' : Z),
       quiet_polls n w 0 address seq expirationTimeSec timeout
       = Some (w', i') ->
       timeout <= i' ->
       WaitForTransaction (n + fuel) w address seq signature
         expirationTimeSec timeout
       = (w', Some (None, Some (ErrTimeout timeout)))).
Proof.
  intros address seq signature e timeout w. split; [| split].
  - intros fuel w' t' H.
    destruct (loop_timeout_quiet _ _ _ _ _ _ _ _ _ _ H)
      as (n & i' & _ & Hq & Hi & Ht).
    exists n, i'. auto.
  - intros n fuel w1 w2 i1 txn Hq Hlt G Hterm.
    assert (HW : WaitForTransaction (n + S fuel) w address seq signature e
                   timeout
                 = match WaitForTransaction_iter w1 address seq signature e
                   with
                   | (w', Some r) => (w', Some r)
                   | (w', None) =>
                     WaitForTransaction_loop fuel w' (add_int64 i1 step)
                       address seq signature e timeout
                   end).
    { unfold WaitForTransaction.
      rewrite (loop_quiet _ _ _ _ _ _ _ _ _ _ _ Hq).
      now rewrite (loop_enter _ _ _ _ _ _ _ _ Hlt). }
    destruct txn as [t |].
    + exists (found_outcome t signature).
      rewrite HW, (iter_found _ _ signature e _ _ _ G).
      repeat split. intros t'. apply found_outcome_not_timeout.
    + destruct Hterm as [Hne | Hexp]; [now elim Hne |].
      exists (None, Some ErrExpired).
      rewrite HW, (iter_not_found _ _ signature e _ _ G).
      destruct (Z.leb_spec (mul_uint64 e 1000000)
                  (TimestampUsec (LastResponseLedgerState (self w2))));
        [| lia].
      repeat split. discriminate.
  - intros n fuel w' i' Hq Hi. unfold WaitForTransaction.
    rewrite (loop_quiet _ _ _ _ _ _ _ _ _ _ _ Hq).
    now apply loop_leave.
Qed.

(** X9: with a timeout of at most [2^63 - step] nanoseconds the loop of a
    wait ends: given [iterations timeout] iterations or more, the wait
    returns a result. *)
Lemma WaitForTransaction_returns (w : world) (address : string) (seq : Z)
  (signature : string) (expirationTimeSec timeout : Z) (fuel : nat) :
  timeout + step <= 2 ^ 63 ->
  (iterations timeout <= fuel)%nat ->
  exists r,
    snd (WaitForTransaction fuel w address seq signature expirationTimeSec
           timeout) = Some r.
Proof.
  intros Hmax Hfuel. unfold WaitForTransaction.
  apply loop_returns; try lia.
  unfold iterations in Hfuel.
  assert (Hs : step = 500000000) by reflexivity.
  rewrite Hs in *.
  destruct (Z.le_gt_cases timeout 0) as [Hn | Hp]; [nia |].
  assert (Hdiv : timeout <= ((timeout + 500000000 - 1) / 500000000)
                            * 500000000).
  { pose proof (Z.div_mod (timeout + 500000000 - 1) 500000000) as Hd.
    pose proof (Z.mod_pos_bound (timeout + 500000000 - 1) 500000000).
    lia. }
  assert (0 <= (timeout + 500000000 - 1) / 500000000)
    by (apply Z.div_pos; lia).
  nia.
Qed.

(** C10: the product of the expiration test is taken modulo [2^64].  For
    every [uint64] value of [expirationTimeSec] above
    [(2^64 - 1) / 1_000_000] the exact product does not fit and the
    computed one is smaller; then, at a poll that finds no transaction
    with a stored timestamp that is at least the computed product, the
    wait returns the expired error although the timestamp is below the
    exact product, that is, before the expiration. *)
Theorem expiration_product_wraps :
  forall expirationTimeSec : Z,
    is_uint64 expirationTimeSec ->
    (2 ^ 64 - 1) / 1000000 < expirationTimeSec ->
    2 ^ 64 <= expirationTimeSec * 1000000 /\
    mul_uint64 expirationTimeSec 1000000
    = expirationTimeSec * 1000000
      - 2 ^ 64 * (expirationTimeSec * 1000000 / 2 ^ 64) /\
    mul_uint64 expirationTimeSec 1000000 < expirationTimeSec * 1000000 /\
    forall (n fuel : nat) (w w1 w2 : world) (i1 : Z) (address : string)
           (seq : Z) (signature : string) (timeout : Z),
      quiet_polls n w 0 address seq expirationTimeSec timeout
      = Some (w1, i1) ->
      i1 < timeout ->
      GetAccountTransaction w1 address seq true = (w2, (None, None)) ->
      mul_uint64 expirationTimeSec 1000000
      <= TimestampUsec (LastResponseLedgerState (self w2)) ->
      is_uint64 (TimestampUsec (LastResponseLedgerState (self w2))) ->
      WaitForTransaction (n + S fuel) w address seq signature
        expirationTimeSec timeout = (w2, Some (None, Some ErrExpired)) /\
      TimestampUsec (LastResponseLedgerState (self w2))
      < expirationTimeSec * 1000000.
Proof.
  intros e [He0 He1] Hbig.
  change ((2 ^ 64 - 1) / 1000000) with 18446744073709 in Hbig.
  assert (Hprod : 2 ^ 64 <= e * 1000000) by lia.
  pose proof (mul_uint64_range e 1000000) as Hr. unfold is_uint64 in Hr.
  split; [exact Hprod |]. split; [| split].
  - unfold mul_uint64, wrap_uint64.
    pose proof (Z.div_mod (e * 1000000) (2 ^ 64)). lia.
  - lia.
  - intros n fuel w w1 w2 i1 address seq signature timeout Hq Hlt G Hle Hts.
    unfold WaitForTransaction. split.
    + rewrite (loop_quiet _ _ _ _ _ _ _ _ _ _ _ Hq).
      rewrite (loop_enter _ _ _ _ _ _ _ _ Hlt).
      rewrite (iter_not_found _ _ signature e _ _ G).
      destruct (Z.leb_spec (mul_uint64 e 1000000)
                  (TimestampUsec (LastResponseLedgerState (self w2))));
        [reflexivity | lia].
    + unfold is_uint64 in Hts. lia.
Qed.

End Confirmation.

Section Interface.
Context `{Ext : External} {Rpc : JsonRpcClient} {Dec : Decoders}.

(** ** The stored state under the operations of the interface *)

Ltac unfold_methods :=
  unfold GetCurrencies, GetMetadata, GetMetadataByVersion, GetAccount,
    GetAccountTransaction, GetAccountTransactions, GetTransactions,
    GetEvents, Submit.

Lemma invoke_le (m : rpc_method) (w : world) :
  ledger_le (last (self w)) (last (self (fst (invoke m w)))).
Proof.
  destruct m; cbn [invoke]; unfold_methods;
    match goal with
    | |- context [call ?w0 ?m0 ?r0 ?p0] =>
      pose proof (call_world w0 m0 r0 p0) as H;
      destruct (call w0 m0 r0 p0) as [w' [ret [ok e]]]
    end;
    cbn [fst] in H; destruct ok; try destruct e; cbn; tauto.
Qed.

Lemma iter_le (w : world) (address : string) (seq : Z) (signature : string)
  (expirationTimeSec : Z) :
  ledger_le (last (self w))
    (last (self (fst (WaitForTransaction_iter w address seq signature
                        expirationTimeSec)))).
Proof.
  pose proof (GetAccountTransaction_world w address seq true) as H.
  unfold WaitForTransaction_iter.
  destruct (GetAccountTransaction w address seq true)
    as [w1 [[t |] [e |]]]; cbn [fst] in H; cbv zeta in H;
    try (cbn; tauto).
  - destruct (negb _); [cbn; tauto |]. destruct (negb _); cbn; tauto.
  - destruct (_ <=? _); cbn; tauto.
Qed.

Lemma loop_le (fuel : nat) :
  forall (w : world) (i : Z) (address : string) (seq : Z)
         (signature : string) (expirationTimeSec timeout : Z),
    ledger_le (last (self w))
      (last (self (fst (WaitForTransaction_loop fuel w i address seq
                          signature expirationTimeSec timeout)))).
Proof.
  induction fuel as [| fuel IH]; intros w i address seq signature e timeout;
    cbn [WaitForTransaction_loop]; destruct (i <? timeout);
    try apply ledger_le_refl.
  pose proof (iter_le w address seq signature e) as H.
  destruct (WaitForTransaction_iter w address seq signature e)
    as [w' [r |]]; cbn [fst] in *; [exact H |].
  eapply ledger_le_trans; [exact H | apply IH].
Qed.

Lemma run_le (fuel : nat) (o : operation) (w : world) :
  validating o = true ->
  ledger_le (last (self w)) (last (self (run fuel o w))).
Proof.
  destruct o; cbn [run validating]; intros Hv.
  - apply invoke_le.
  - apply loop_le.
  - apply ledger_le_refl.
  - discriminate.
Qed.

(** C5, amended: when the operations of a client run one after another,
    none starting before the one before it has returned, every operation
    of the interface other than [UpdateLastResponseLedgerState] leaves the
    stored version and timestamp at least where they were, and so does
    every sequence of such operations; [UpdateLastResponseLedgerState],
    which the interface exposes as well, stores its argument whatever it
    is. *)
Theorem interface_monotone_except_update :
  forall (fuel : nat) (os : list operation) (w : world),
    forallb validating os = true ->
    ledger_le (last (self w)) (last (self (run_all fuel os w))) /\
    (forall o, In o os ->
       forall w0, ledger_le (last (self w0)) (last (self (run fuel o w0)))) /\
    (forall (state : LedgerState) (w0 : world),
       last (self (run fuel (OpUpdateLastResponseLedgerState state) w0))
       = state).
Proof.
  intros fuel os w Hv. split; [| split].
  - revert w. unfold run_all.
    induction os as [| o os IH]; intros w; cbn [fold_left].
    + apply ledger_le_refl.
    + cbn [forallb] in Hv. apply andb_prop in Hv as [Ho Hos].
      eapply ledger_le_trans; [apply (run_le fuel o w Ho) |].
      now apply IH.
  - intros o Hin w0. apply run_le.
    rewrite forallb_forall in Hv. now apply Hv.
  - reflexivity.
Qed.

End Interface.

Section MethodFacts.
Context `{Ext : External} {Rpc : JsonRpcClient} {Dec : Decoders}.

(** ** Further facts about the methods built on [call] *)

Ltac unfold_methods :=
  unfold GetCurrencies, GetMetadata, GetMetadataByVersion, GetAccount,
    GetAccountTransaction, GetAccountTransactions, GetTransactions,
    GetEvents, Submit.

(** The call a method makes, as [call] sees it. *)
Ltac with_call tac :=
  match goal with
  | |- context [call ?w0 ?m0 ?r0 ?p0] => tac w0 m0 r0 p0
  end.

(** X1: when the transport fails, every method returns the transport's
    error with a nil reply; nothing is validated and nothing is stored:
    the world differs only by the count of calls. *)
Theorem invoke_transport_error :
  forall (m : rpc_method) (w : world) (err : ForeignError),
    Call (calls w) (request_of m) = inl err ->
    snd (snd (invoke m w)) = Some (ErrForeign err) /\
    reply_is_nil (fst (snd (invoke m w))) = true /\
    fst (invoke m w) = called w.
Proof.
  intros m w err H.
  destruct m; cbn [invoke request_of] in *; unfold_methods;
    rewrite (call_transport_error _ _ _ _ _ H); cbn; repeat split.
Qed.

Lemma invoke_world (m : rpc_method) (w : world) :
  calls (fst (invoke m w)) = S (calls w) /\
  slept (fst (invoke m w)) = slept w /\
  chainID (self (fst (invoke m w))) = chainID (self w).
Proof.
  destruct m; cbn [invoke]; unfold_methods;
    with_call ltac:(fun w0 m0 r0 p0 =>
      pose proof (call_world w0 m0 r0 p0) as H;
      destruct (call w0 m0 r0 p0) as [w' [ret [ok e]]]);
    cbn [fst] in H; destruct ok; try destruct e; cbn; tauto.
Qed.

(** X3: a method makes exactly one [rpc.Call] and never sleeps, whatever
    the outcome is. *)
Theorem invoke_one_call :
  forall (m : rpc_method) (w : world),
    calls (fst (invoke m w)) = S (calls w) /\
    slept (fst (invoke m w)) = slept w.
Proof. intros m w. pose proof (invoke_world m w). tauto. Qed.

(** X4: a method that returns an error returns a nil reply with it. *)
Theorem invoke_error_nil_reply :
  forall (m : rpc_method) (w : world) (e : error),
    snd (snd (invoke m w)) = Some e ->
    reply_is_nil (fst (snd (invoke m w))) = true.
Proof.
  intros m w e.
  destruct m; cbn [invoke]; unfold_methods;
    with_call ltac:(fun w0 m0 r0 p0 =>
      destruct (call w0 m0 r0 p0) as [w' [ret [ok err]]]);
    destruct ok; try destruct err; cbn; intros; try discriminate;
    reflexivity.
Qed.

(** X15: the only state a method ever stores is the ledger state of the
    response it received: after a method the client is either unchanged or
    the client with the candidate of that response stored. *)
Theorem invoke_stores_response_state :
  forall (m : rpc_method) (w : world),
    self (fst (invoke m w)) = self w \/
    exists resp : Response,
      Call (calls w) (request_of m) = inr resp /\
      validation_error (self w) resp = None /\
      self (fst (invoke m w))
      = UpdateLastResponseLedgerState (self w) (candidate resp).
Proof.
  intros m w.
  destruct (Call (calls w) (request_of m)) as [err | resp] eqn:HC.
  - left. now destruct (invoke_transport_error m w err HC) as (_ & _ & ->).
  - destruct (validation_error (self w) resp) as [e |] eqn:HV.
    + left. now destruct (invoke_validation_rejects m w resp e HC HV)
        as (_ & _ & ->).
    + right. exists resp. split; [reflexivity |]. split; [exact HV |].
      now destruct (invoke_validation_passes m w resp HC HV) as [-> _].
Qed.

End MethodFacts.

Section WaitFacts.
Context `{Ext : External} {Rpc : JsonRpcClient} {Dec : Decoders}.

(** ** Further facts about [WaitForTransaction] *)

Lemma repeat_app_cons {A : Type} (x : A) (k : nat) (l : list A) :
  repeat x k ++ x :: l = x :: repeat x k ++ l.
Proof.
  induction k as [| k IH]; cbn; [reflexivity | now rewrite IH].
Qed.

Lemma wrap_int64_range (z : Z) : - 2 ^ 63 <= wrap_int64 z < 2 ^ 63.
Proof.
  unfold wrap_int64.
  pose proof (Z.mod_pos_bound (z + 2 ^ 63) (2 ^ 64)). lia.
Qed.

Lemma wrap_int64_aligned (z : Z) : (256 | z) -> (256 | wrap_int64 z).
Proof.
  intros [q ->]. unfold wrap_int64. rewrite Z.mod_eq by lia.
  exists (q - 2 ^ 56 * ((q * 256 + 2 ^ 63) / 2 ^ 64)).
  change (2 ^ 64) with (2 ^ 56 * 256) at 1. lia.
Qed.

Lemma step_aligned : (256 | step).
Proof. exists 1953125. reflexivity. Qed.

Section Counting.
Variables (address : string) (seq : Z) (signature : string)
          (expirationTimeSec timeout : Z).

#[local] Abbreviation iter w :=
  (WaitForTransaction_iter w address seq signature expirationTimeSec).
#[local] Abbreviation loop fuel w i :=
  (WaitForTransaction_loop fuel w i address seq signature
     expirationTimeSec timeout).
#[local] Abbreviation quiet n w i :=
  (quiet_polls n w i address seq expirationTimeSec timeout).

(** What one iteration does to the world. *)
Lemma iter_world (w : world) :
  calls (fst (iter w)) = S (calls w) /\
  chainID (self (fst (iter w))) = chainID (self w) /\
  slept (fst (iter w))
  = match snd (iter w) with
    | Some _ => slept w
    | None => step :: slept w
    end.
Proof.
  pose proof (GetAccountTransaction_world w address seq true) as H.
  unfold WaitForTransaction_iter.
  destruct (GetAccountTransaction w address seq true)
    as [w1 [[t |] [e |]]]; cbn [fst] in H; cbv zeta in H;
    try (cbn; tauto).
  - destruct (negb _); [cbn; tauto |]. destruct (negb _); cbn; tauto.
  - destruct (_ <=? _); cbn; intuition congruence.
Qed.

(** The shape of what an iteration returns. *)
Lemma iter_shape (w w' : world) (r : option Transaction * option error) :
  iter w = (w', Some r) ->
  (exists t, r = (Some t, None) /\ txnSignature t = signature /\
             vmStatusType (txnVmStatus t) = VmStatusExecuted) \/
  (exists e, r = (None, Some e)).
Proof.
  unfold WaitForTransaction_iter.
  destruct (GetAccountTransaction w address seq true)
    as [w1 [[t |] [e |]]].
  - intros [= <- <-]. right. eauto.
  - destruct (String.eqb_spec (txnSignature t) signature) as [Es | Es];
      cbn [negb]; [| intros [= <- <-]; right; eauto].
    destruct (String.eqb_spec (vmStatusType (txnVmStatus t))
                              VmStatusExecuted) as [Ev | Ev];
      cbn [negb]; intros [= <- <-]; [left | right]; eauto.
  - intros [= <- <-]. right. eauto.
  - destruct (_ <=? _); [intros [= <- <-]; right; eauto | discriminate].
Qed.

Lemma is_timeout_error_false (r : option Transaction * option error) :
  (forall t', r <> (None, Some (ErrTimeout t'))) ->
  is_timeout_error r = false.
Proof.
  destruct r as [[t |] [e |]]; cbn; intros H; try reflexivity.
  destruct e as [| | | | | | | t0]; try reflexivity.
  now elim (H t0).
Qed.

Lemma loop_shape (fuel : nat) :
  forall (w w' : world) (i : Z) (r : option Transaction * option error),
    loop fuel w i = (w', Some r) ->
    (exists t, r = (Some t, None) /\ txnSignature t = signature /\
               vmStatusType (txnVmStatus t) = VmStatusExecuted) \/
    (exists e, r = (None, Some e)).
Proof.
  induction fuel as [| fuel IH]; intros w w' i r;
    cbn [WaitForTransaction_loop]; destruct (i <? timeout);
    try discriminate; try (intros [= <- <-]; right; eauto; fail).
  destruct (iter w) as [w1 [r1 |]] eqn:It.
  - intros [= <- <-]. exact (iter_shape _ _ _ It).
  - apply IH.
Qed.

(** The calls and sleeps of the loop: [k] iterations ended with a sleep of
    [step]; one more call was made when the loop returned from inside an
    iteration. *)
Lemma loop_accounting (fuel : nat) :
  forall (w : world) (i : Z),
    exists k : nat,
      (k <= fuel)%nat /\
      slept (fst (loop fuel w i)) = repeat step k ++ slept w /\
      calls (fst (loop fuel w i))
      = (calls w + k
         + match snd (loop fuel w i) with
           | Some r => if is_timeout_error r then 0 else 1
           | None => 0
           end)%nat /\
      chainID (self (fst (loop fuel w i))) = chainID (self w).
Proof.
  induction fuel as [| fuel IH]; intros w i;
    cbn [WaitForTransaction_loop]; destruct (i <? timeout);
    try (exists 0%nat; cbn; repeat split; lia).
  pose proof (iter_world w) as (Hc & Hid & Hs).
  destruct (iter w) as [w1 [r1 |]] eqn:It; cbn [fst snd] in *.
  - exists 0%nat. cbn [repeat app].
    rewrite (is_timeout_error_false r1)
      by (intros t'; exact (iter_returns_not_timeout _ _ _ _ _ _ _ t' It)).
    repeat split; try assumption; lia.
  - destruct (IH w1 (add_int64 i step)) as (k & Hk & Hsl & Hca & Hch).
    exists (S k). rewrite Hsl, Hca, Hch, Hs, Hc, Hid.
    rewrite repeat_app_cons. cbn [repeat app]. repeat split; lia.
Qed.

(** The world and the counter after [n] quiet polls, when the counter
    stays in range. *)
Lemma quiet_polls_exact (n : nat) :
  forall (w w' : world) (i i' : Z),
    quiet n w i = Some (w', i') ->
    0 <= i -> timeout + step <= 2 ^ 63 ->
    i' = i + Z.of_nat n * step /\
    calls w' = (calls w + n)%nat /\
    slept w' = repeat step n ++ slept w /\
    (0 < Z.of_nat n -> i' - step < timeout).
Proof.
  assert (Hs : step = 500000000) by reflexivity.
  induction n as [| n IH]; intros w w' i i'.
  - cbn [quiet_polls]. intros [= <- <-] Hi Hmax. cbn. repeat split; lia.
  - cbn [quiet_polls].
    destruct (Z.ltb_spec i timeout) as [Hlt | Hge]; [| discriminate].
    pose proof (GetAccountTransaction_world w address seq true) as HW.
    destruct (GetAccountTransaction w address seq true)
      as [w1 [[t |] [e |]]]; try discriminate.
    cbn [fst] in HW; cbv zeta in HW.
    destruct (_ <=? _); [discriminate |].
    intros Hq Hi Hmax.
    rewrite add_int64_exact in Hq by lia.
    destruct (IH _ _ _ _ Hq) as (Hi' & Hc & Hsl & Hlast); try lia.
    unfold Sleep in Hc, Hsl. cbn [calls slept] in Hc, Hsl.
    rewrite repeat_app_cons in Hsl.
    destruct HW as (HWc & HWs & _). rewrite HWc in Hc. rewrite HWs in Hsl.
    split; [lia |]. split; [lia |]. split; [exact Hsl |].
    intros _. destruct n as [| n]; lia.
Qed.

(** The counter stays a multiple of 256 inside [int64]. *)
Lemma quiet_polls_aligned (n : nat) :
  forall (w w' : world) (i i' : Z),
    quiet n w i = Some (w', i') ->
    (256 | i) -> - 2 ^ 63 <= i < 2 ^ 63 ->
    (256 | i') /\ - 2 ^ 63 <= i' < 2 ^ 63.
Proof.
  induction n as [| n IH]; intros w w' i i'.
  - cbn [quiet_polls]. now intros [= <- <-].
  - cbn [quiet_polls]. destruct (i <? timeout); [| discriminate].
    destruct (GetAccountTransaction w address seq true)
      as [w1 [[t |] [e |]]]; try discriminate.
    destruct (_ <=? _); [discriminate |].
    intros Hq Hd Hr. apply (IH _ _ _ _ Hq).
    + apply wrap_int64_aligned. apply Z.divide_add_r;
        [exact Hd | exact step_aligned].
    + apply wrap_int64_range.
Qed.

End Counting.

(** X7: whatever a wait returns, it is either a transaction without error
    or an error without transaction; and a returned transaction has the
    expected signature and the VM status "executed". *)
Theorem WaitForTransaction_result_shape :
  forall (fuel : nat) (w w' : world) (address : string) (seq : Z)
         (signature : string) (expirationTimeSec timeout : Z)
         (r : option Transaction * option error),
    WaitForTransaction fuel w address seq signature expirationTimeSec
      timeout = (w', Some r) ->
    (exists t, r = (Some t, None) /\ txnSignature t = signature /\
               vmStatusType (txnVmStatus t) = VmStatusExecuted) \/
    (exists e, r = (None, Some e)).
Proof.
  intros fuel w w' address seq signature e timeout r.
  unfold WaitForTransaction. apply loop_shape.
Qed.

(** X10: a wait sleeps [step] (500ms) and nothing else, once after each
    poll that returned nothing; it makes one lookup per poll, so that the
    number of calls is the number of sleeps when it ends with the timeout
    error (or out of fuel) and one more when a poll ended it. *)
Theorem WaitForTransaction_accounting :
  forall (fuel : nat) (w : world) (address : string) (seq : Z)
         (signature : string) (expirationTimeSec timeout : Z),
    exists k : nat,
      (k <= fuel)%nat /\
      slept (fst (WaitForTransaction fuel w address seq signature
                    expirationTimeSec timeout))
      = repeat step k ++ slept w /\
      calls (fst (WaitForTransaction fuel w address seq signature
                    expirationTimeSec timeout))
      = (calls w + k
         + match snd (WaitForTransaction fuel w address seq signature
                        expirationTimeSec timeout) with
           | Some r => if is_timeout_error r then 0 else 1
           | None => 0
           end)%nat.
Proof.
  intros fuel w address seq signature e timeout. unfold WaitForTransaction.
  destruct (loop_accounting address seq signature e timeout fuel w 0)
    as (k & Hk & Hs & Hc & _).
  exists k. auto.
Qed.

(** X11: with a timeout of at most [2^63 - step] nanoseconds, a wait that
    returns the timeout error has made exactly [iterations timeout] lookups,
    the timeout divided by 500ms and rounded up (none for a timeout that is
    not positive), each followed by a sleep of 500ms. *)
Theorem WaitForTransaction_timeout_polls :
  forall (fuel : nat) (w w' : world) (address : string) (seq : Z)
         (signature : string) (expirationTimeSec timeout t' : Z),
    timeout + step <= 2 ^ 63 ->
    WaitForTransaction fuel w address seq signature expirationTimeSec
      timeout = (w', Some (None, Some (ErrTimeout t'))) ->
    calls w' = (calls w + iterations timeout)%nat /\
    slept w' = repeat step (iterations timeout) ++ slept w.
Proof.
  intros fuel w w' address seq signature e timeout t' Hmax H.
  destruct (loop_timeout_quiet _ _ _ _ _ _ _ _ _ _ H)
    as (n & i' & _ & Hq & Hi & _).
  destruct (quiet_polls_exact _ _ _ _ _ _ _ _ _ Hq) as (Hi' & Hc & Hs & Hl);
    try lia.
  assert (Hst : step = 500000000) by reflexivity.
  assert (Hn : iterations timeout = n).
  { unfold iterations. rewrite Hst in *.
    destruct n as [| n].
    - assert (Hq0 : (timeout + 500000000 - 1) / 500000000 <= 0).
      { apply Z.lt_succ_r. apply Z.div_lt_upper_bound; lia. }
      destruct ((timeout + 500000000 - 1) / 500000000); cbn; lia.
    - assert (Hd : (timeout + 500000000 - 1) / 500000000
                   = Z.of_nat (S n)).
      { symmetry.
        apply (Z.div_unique _ _ _
                 (timeout + 500000000 - 1 - 500000000 * Z.of_nat (S n)));
          lia. }
      rewrite Hd. apply Nat2Z.id. }
  rewrite Hn. auto.
Qed.

(** X12: the loop counter is an [int64] that advances by [step], a multiple
    of 256, with wrap-around; a timeout above [2^63 - 256] is never reached
    by it, so a wait with such a timeout never returns the timeout error. *)
Theorem WaitForTransaction_huge_timeout :
  forall (fuel : nat) (w w' : world) (address : string) (seq : Z)
         (signature : string) (expirationTimeSec timeout t' : Z),
    2 ^ 63 - 256 < timeout ->
    WaitForTransaction fuel w address seq signature expirationTimeSec
      timeout <> (w', Some (None, Some (ErrTimeout t'))).
Proof.
  intros fuel w w' address seq signature e timeout t' Hbig H.
  destruct (loop_timeout_quiet _ _ _ _ _ _ _ _ _ _ H)
    as (n & i' & _ & Hq & Hi & _).
  destruct (quiet_polls_aligned _ _ _ _ _ _ _ _ _ Hq) as ([q Hd] & Hr).
  - apply Z.divide_0_r.
  - lia.
  - lia.
Qed.

(** X8: with [expirationTimeSec = 0], a positive timeout and a stored
    timestamp that is not negative, the first poll ends the wait (with its
    transaction, its error or the expired error): one lookup, no sleep. *)
Theorem WaitForTransaction_expiration_zero :
  forall (fuel : nat) (w : world) (address : string) (seq : Z)
         (signature : string) (timeout : Z),
    0 < timeout ->
    0 <= TimestampUsec (last (self w)) ->
    exists (w' : world) (r : option Transaction * option error),
      WaitForTransaction (S fuel) w address seq signature 0 timeout
      = (w', Some r) /\
      calls w' = S (calls w) /\ slept w' = slept w /\
      (GetAccountTransaction w address seq true = (w', (None, None)) ->
       r = (None, Some ErrExpired)).
Proof.
  intros fuel w address seq signature timeout Hpos Hts.
  unfold WaitForTransaction. rewrite (loop_enter _ _ _ _ _ _ _ _ Hpos).
  pose proof (GetAccountTransaction_world w address seq true) as HW.
  unfold WaitForTransaction_iter.
  destruct (GetAccountTransaction w address seq true)
    as [w1 [[t |] [e |]]]; cbn [fst] in HW; cbv zeta in HW;
    destruct HW as (Hc & Hs & _ & Hle).
  - eexists _, _. repeat split; eauto. discriminate.
  - destruct (negb _); [| destruct (negb _)];
      (eexists _, _; repeat split; eauto; discriminate).
  - eexists _, _. repeat split; eauto. discriminate.
  - unfold ledger_le in Hle. unfold LastResponseLedgerState.
    destruct (Z.leb_spec (mul_uint64 0 1000000) (TimestampUsec (last (self w1))))
      as [_ | Hgt]; [| cbn in Hgt; lia].
    eexists _, _. repeat split; eauto.
Qed.

(** X13: a response that fails the chain-id check or the staleness check at
    some poll ends the wait with that error; the client is as it was before
    that poll. *)
Theorem WaitForTransaction_validation_error :
  forall (n fuel : nat) (w w1 : world) (i1 : Z) (address : string)
         (seq : Z) (signature : string) (expirationTimeSec timeout : Z)
         (resp : Response) (err : error),
    quiet_polls n w 0 address seq expirationTimeSec timeout
    = Some (w1, i1) ->
    i1 < timeout ->
    Call (calls w1) (request_of (MGetAccountTransaction address seq true))
    = inr resp ->
    validation_error (self w1) resp = Some err ->
    WaitForTransaction (n + S fuel) w address seq signature
      expirationTimeSec timeout = (called w1, Some (None, Some err)).
Proof.
  intros n fuel w w1 i1 address seq signature e timeout resp err Hq Hlt HC HV.
  unfold WaitForTransaction.
  rewrite (loop_quiet _ _ _ _ _ _ _ _ _ _ _ Hq).
  rewrite (loop_enter _ _ _ _ _ _ _ _ Hlt).
  assert (G : GetAccountTransaction w1 address seq true
              = (called w1, (None, Some err))).
  { unfold GetAccountTransaction. cbn [request_of] in HC.
    now rewrite (call_validation_rejects _ _ _ _ _ _ HC HV). }
  now rewrite (iter_lookup_error _ _ _ _ _ _ _ _ G).
Qed.

(** X14: a response that passes both checks and carries an error of its
    own ends the wait with that error, after its ledger state has been
    stored. *)
Theorem WaitForTransaction_response_error :
  forall (n fuel : nat) (w w1 : world) (i1 : Z) (address : string)
         (seq : Z) (signature : string) (expirationTimeSec timeout : Z)
         (resp : Response) (e : ResponseError),
    quiet_polls n w 0 address seq expirationTimeSec timeout
    = Some (w1, i1) ->
    i1 < timeout ->
    Call (calls w1) (request_of (MGetAccountTransaction address seq true))
    = inr resp ->
    validation_error (self w1) resp = None ->
    Error resp = Some e ->
    WaitForTransaction (n + S fuel) w address seq signature
      expirationTimeSec timeout
    = (set_self (called w1)
         (UpdateLastResponseLedgerState (self w1) (candidate resp)),
       Some (None, Some (ErrResponse e))).
Proof.
  intros n fuel w w1 i1 address seq signature ex timeout resp e Hq Hlt HC HV
         HE.
  unfold WaitForTransaction.
  rewrite (loop_quiet _ _ _ _ _ _ _ _ _ _ _ Hq).
  rewrite (loop_enter _ _ _ _ _ _ _ _ Hlt).
  assert (G : GetAccountTransaction w1 address seq true
              = (set_self (called w1)
                   (UpdateLastResponseLedgerState (self w1)
                      (candidate resp)),
                 (None, Some (ErrResponse e)))).
  { unfold GetAccountTransaction. cbn [request_of] in HC.
    rewrite (call_validation_passes _ _ _ _ _ HC HV). cbv zeta.
    now rewrite HE. }
  now rewrite (iter_lookup_error _ _ _ _ _ _ _ _ G).
Qed.

(** ** The client as a whole *)

(** X2: no operation of the interface changes the chain identity the client
    was made with, neither a call, nor a wait, nor the setter of the ledger
    state. *)
Theorem run_all_chainID :
  forall (fuel : nat) (os : list operation) (w : world),
    chainID (self (run_all fuel os w)) = chainID (self w).
Proof.
  intros fuel os. unfold run_all.
  induction os as [| o os IH]; intros w; cbn [fold_left]; [reflexivity |].
  rewrite IH. destruct o; cbn [run].
  - now destruct (invoke_world m w) as (_ & _ & ->).
  - unfold WaitForTransaction.
    now destruct (loop_accounting address seq signature expirationTimeSec
                    timeout fuel w 0) as (k & _ & _ & _ & ->).
  - reflexivity.
  - reflexivity.
Qed.

(** X5: a client as [NewWithJsonRpcClient] makes it stores the zero state,
    so it accepts every first candidate whose fields are [uint64] values:
    the first response of the right chain is never stale. *)
Theorem fresh_client_accepts :
  forall (id : Z) (state : LedgerState),
    is_uint64 (TimestampUsec state) ->
    is_uint64 (Version state) ->
    validateAndUpdateState (NewWithJsonRpcClient id) state
    = (mkClient id state, None).
Proof.
  intros id state [Ht _] [Hv _].
  rewrite validateAndUpdateState_accepts; [reflexivity |].
  unfold behind. cbn. lia.
Qed.

End WaitFacts.

Section TestFacts.
Context `{Ext : External} {Rpc : JsonRpcClient} {Dec : Decoders}
        {Acc : AccountData}.

(** ** The helper [waitAccountSequence] *)

Lemma GetAccount_world (w : world) (address : string) :
  calls (fst (GetAccount w address)) = S (calls w) /\
  slept (fst (GetAccount w address)) = slept w.
Proof.
  pose proof (call_world (T := Account) w Method.GetAccount zeroAccount
    [PAddress address]) as H.
  unfold GetAccount. destruct (call _ _ _ _) as [w' [ret [ok err]]].
  destruct ok; cbn [fst] in *; tauto.
Qed.

Lemma waitAccountSequence_loop_accounting (remaining : nat) :
  forall (w : world) (seq : Z),
    exists k : nat,
      slept (fst (waitAccountSequence_loop remaining w seq))
      = repeat (100 * Millisecond) k ++ slept w /\
      match snd (waitAccountSequence_loop remaining w seq) with
      | Some (PanicMessage _) =>
        k = remaining /\
        calls (fst (waitAccountSequence_loop remaining w seq))
        = (calls w + remaining)%nat
      | _ =>
        (k < remaining)%nat /\
        calls (fst (waitAccountSequence_loop remaining w seq))
        = (calls w + S k)%nat
      end.
Proof.
  induction remaining as [| remaining IH]; intros w seq;
    cbn [waitAccountSequence_loop].
  - exists 0%nat. cbn. repeat split; lia.
  - pose proof (GetAccount_world w mint_address) as (Hc & Hs).
    destruct (GetAccount w mint_address) as [w1 [[a |] [e |]]];
      cbn [fst] in Hc, Hs;
      try (exists 0%nat; cbn; rewrite Hc, Hs; repeat split; lia).
    destruct (_ >=? _).
    + exists 0%nat. cbn. rewrite Hc, Hs. repeat split; lia.
    + destruct (IH (Sleep w1 (100 * Millisecond)) seq) as (k & Hsl & Hm).
      exists (S k). rewrite Hsl. cbn [Sleep slept calls] in *.
      rewrite repeat_app_cons, Hs. split; [reflexivity |].
      destruct (snd (waitAccountSequence_loop remaining _ seq))
        as [[e | | msg] |]; rewrite Hc in Hm;
        destruct Hm as [Hk Hcalls]; rewrite Hcalls; split; lia.
Qed.

(** X16: [waitAccountSequence] looks the account up at most 100 times and
    sleeps 100ms after each lookup that showed a sequence number below the
    target.  It ends with the panic "waiting for mint timeout" only after
    100 lookups and 100 sleeps; in every other case the lookup that ended
    it was not followed by a sleep. *)
Theorem waitAccountSequence_accounting :
  forall (w : world) (seq : Z),
    exists k : nat,
      slept (fst (waitAccountSequence w seq))
      = repeat (100 * Millisecond) k ++ slept w /\
      match snd (waitAccountSequence w seq) with
      | Some (PanicMessage _) =>
        k = 100%nat /\
        calls (fst (waitAccountSequence w seq)) = (calls w + 100)%nat
      | _ =>
        (k < 100)%nat /\
        calls (fst (waitAccountSequence w seq)) = (calls w + S k)%nat
      end.
Proof.
  intros w seq. apply waitAccountSequence_loop_accounting.
Qed.

Lemma waitAccountSequence_loop_returns (remaining : nat) :
  forall (w w' : world) (seq : Z),
    waitAccountSequence_loop remaining w seq = (w', None) ->
    exists (w0 : world) (a : Account),
      GetAccount w0 mint_address = (w', (Some a, None)) /\
      wrap_uint64 seq <= SequenceNumber a.
Proof.
  induction remaining as [| remaining IH]; intros w w' seq;
    cbn [waitAccountSequence_loop]; [discriminate |].
  destruct (GetAccount w mint_address) as [w1 [[a |] [e |]]] eqn:G;
    try discriminate.
  destruct (Z.geb_spec (SequenceNumber a) (wrap_uint64 seq)) as [Hge | Hlt].
  - intros [= <-]. exists w, a. split; [exact G | lia].
  - apply IH.
Qed.

(** X17: [waitAccountSequence] returns normally only from a lookup that
    delivered an account, without error, whose sequence number is at least
    [uint64(seq)]; for a negative [seq] that is [seq + 2^64]. *)
Theorem waitAccountSequence_returns :
  forall (w w' : world) (seq : Z),
    waitAccountSequence w seq = (w', None) ->
    (exists (w0 : world) (a : Account),
       GetAccount w0 mint_address = (w', (Some a, None)) /\
       wrap_uint64 seq <= SequenceNumber a) /\
    (- 2 ^ 63 <= seq < 0 -> wrap_uint64 seq = seq + 2 ^ 64).
Proof.
  intros w w' seq H. split.
  - exact (waitAccountSequence_loop_returns _ _ _ _ H).
  - intros Hneg. unfold wrap_uint64.
    symmetry. apply (Z.mod_unique_pos _ _ (-1)); lia.
Qed.

End TestFacts.

Section Overlap.
Context `{Ext : External}.

(** ** Two calls of [validateAndUpdateState] that overlap *)

(** The two steps of one call, taken without interruption, are the
    function. *)
Lemma advance_twice (c : client) (state : LedgerState) :
  advance (fst (advance c (Entered state))) (snd (advance c (Entered state)))
  = (fst (validateAndUpdateState c state),
     Returned (snd (validateAndUpdateState c state))).
Proof.
  cbn [advance fst snd].
  unfold compare_last, validateAndUpdateState.
  destruct (_ && _); [reflexivity |].
  destruct (_ >? _); [reflexivity |].
  destruct (_ >? _); reflexivity.
Qed.

Lemma compare_last_store (lastv state : LedgerState) :
  ~ behind state lastv -> state <> lastv ->
  compare_last lastv state = VStore.
Proof.
  unfold behind, compare_last. intros Hb Hne.
  destruct (Z.eqb_spec (Version lastv) (Version state)) as [Ev | Ev];
    destruct (Z.eqb_spec (TimestampUsec lastv) (TimestampUsec state))
      as [Et | Et]; cbn [andb].
  - elim Hne. destruct state, lastv; cbn in *; congruence.
  - destruct (Z.gtb_spec (Version lastv) (Version state)); [lia |].
    destruct (Z.gtb_spec (TimestampUsec lastv) (TimestampUsec state));
      [lia | reflexivity].
  - destruct (Z.gtb_spec (Version lastv) (Version state)); [lia |].
    destruct (Z.gtb_spec (TimestampUsec lastv) (TimestampUsec state));
      [lia | reflexivity].
  - destruct (Z.gtb_spec (Version lastv) (Version state)); [lia |].
    destruct (Z.gtb_spec (TimestampUsec lastv) (TimestampUsec state));
      [lia | reflexivity].
Qed.

(** X18: two calls of [validateAndUpdateState] that run one after the other
    are the function applied twice.  When they overlap so that both read the
    stored state before either writes, each decides on the state it read:
    two candidates that are new and not behind that state are both accepted
    without error, the first is stored and then the second replaces it,
    also when the second is behind the first. *)
Theorem overlapping_updates_last_write_wins :
  forall (c : client) (s1 s2 : LedgerState),
    interleave [true; true; false; false] c (Entered s1) (Entered s2)
    = (fst (validateAndUpdateState (fst (validateAndUpdateState c s1)) s2),
       (Returned (snd (validateAndUpdateState c s1)),
        Returned (snd (validateAndUpdateState
                         (fst (validateAndUpdateState c s1)) s2)))) /\
    (~ behind s1 (last c) -> s1 <> last c ->
     ~ behind s2 (last c) -> s2 <> last c ->
     interleave [true; false; true] c (Entered s1) (Entered s2)
     = (UpdateLastResponseLedgerState c s1,
        (Returned None, Holding (last c) s2)) /\
     interleave [true; false; true; false] c (Entered s1) (Entered s2)
     = (UpdateLastResponseLedgerState c s2,
        (Returned None, Returned None))).
Proof.
  intros c s1 s2. split.
  - cbn [interleave].
    pose proof (advance_twice c s1) as H1.
    destruct (advance c (Entered s1)) as [c1 p1]. cbn [fst snd] in H1.
    destruct (advance c1 p1) as [c2 p2]. injection H1 as -> ->.
    pose proof (advance_twice (fst (validateAndUpdateState c s1)) s2) as H2.
    destruct (advance _ (Entered s2)) as [c3 p3]. cbn [fst snd] in H2.
    destruct (advance c3 p3) as [c4 p4]. now injection H2 as -> ->.
  - intros Hb1 Hn1 Hb2 Hn2.
    cbn [interleave advance]. unfold LastResponseLedgerState.
    rewrite (compare_last_store _ _ Hb1 Hn1).
    rewrite (compare_last_store _ _ Hb2 Hn2).
    split; reflexivity.
Qed.

End Overlap.

(** ** The properties at concrete inputs *)

Module Scenarios.
Import Fixture.
#[local] Open Scope string_scope.

(** The guard, from the zero state: (100, 5) is accepted, then (90, 5) is
    rejected for its timestamp and the stored state stays (100, 5). *)
Example guard_accepts_then_rejects :
  validateAndUpdateState (mkClient 2 (mkLedgerState 0 0))
                         (mkLedgerState 100 5)
  = (mkClient 2 (mkLedgerState 100 5), None) /\
  validateAndUpdateState (mkClient 2 (mkLedgerState 100 5))
                         (mkLedgerState 90 5)
  = (mkClient 2 (mkLedgerState 100 5),
     Some (ErrStale "timestamp(usec)" 100 90)).
Proof. split; reflexivity. Qed.

(** The wait for a transaction that never appears, with the ledger clock
    at the expiration at the second poll: expired, not timed out. *)
Example wait_expires_before_timeout :
  WaitForTransaction (Rpc := clock_reaches_1000) (iterations (5 * Second))
    (fresh 2) "addr" 3 "abc" 1000 (5 * Second)
  = (mkWorld (mkClient 2 (mkLedgerState 1000000000 2)) 2 [500000000],
     Some (None, Some ErrExpired)).
Proof. reflexivity. Qed.

Lemma validateAndUpdateState_monotone_witness :
  non_decreasing (mkLedgerState 0 0)
    (states_after (mkClient 2 (mkLedgerState 0 0))
       [mkLedgerState 100 5; mkLedgerState 90 5; mkLedgerState 100 6]).
Proof.
  exact (proj1 (validateAndUpdateState_monotone
                  (mkClient 2 (mkLedgerState 0 0))
                  [mkLedgerState 100 5; mkLedgerState 90 5;
                   mkLedgerState 100 6])).
Defined.

Lemma validateAndUpdateState_equal_noop_witness :
  validateAndUpdateState (mkClient 2 (mkLedgerState 100 5))
                         (mkLedgerState 100 5)
  = (mkClient 2 (mkLedgerState 100 5), None).
Proof.
  apply (proj1 (validateAndUpdateState_equal_noop
                  (mkClient 2 (mkLedgerState 100 5))
                  (mkLedgerState 100 5))); reflexivity.
Defined.

Lemma call_chain_id_mismatch_witness :
  call (Rpc := other_chain) (fresh 2) Method.GetAccountTransaction
    zeroTransaction []
  = (called (fresh 2), (zeroTransaction, (false, Some (ErrChainID 2 4)))) /\
  self (fst (call (Rpc := other_chain) (fresh 2)
               Method.GetAccountTransaction zeroTransaction []))
  = self (fresh 2).
Proof.
  apply (call_chain_id_mismatch (Rpc := other_chain) Transaction _ (fresh 2)
           Method.GetAccountTransaction zeroTransaction []
           (resp 4 7 7 (Some "server error") None)).
  - reflexivity.
  - vm_compute. lia.
Defined.

Lemma invoke_validates_first_witness :
  rejected_with (Rpc := idle 90 5) (MGetAccount "a") (at_state 2 100 5)
    (ErrStale "timestamp(usec)" 100 90).
Proof.
  destruct (invoke_validates_first (Rpc := idle 90 5) (MGetAccount "a")
              (at_state 2 100 5) (resp 2 90 5 None None) eq_refl)
    as [_ [H _]].
  apply H; reflexivity.
Defined.

Lemma WaitForTransaction_found_witness :
  exists r,
    WaitForTransaction (Rpc := lands_second) (1 + 1) (fresh 2) "addr" 3
      "abc" 1000 (5 * Second)
    = (mkWorld (mkClient 2 (mkLedgerState 6 3)) 2 [500000000], Some r) /\
    r = (Some (mkTxn "abc" "executed"), None).
Proof.
  assert (Hq : quiet_polls (Rpc := lands_second) 1 (fresh 2) 0 "addr" 3
                 1000 (5 * Second)
               = Some (mkWorld (mkClient 2 (mkLedgerState 5 2)) 1
                               [500000000], 500000000))
    by (vm_compute; reflexivity).
  assert (Hlt : 500000000 < 5 * Second) by reflexivity.
  assert (G : GetAccountTransaction (Rpc := lands_second)
                (mkWorld (mkClient 2 (mkLedgerState 5 2)) 1 [500000000])
                "addr" 3 true
              = (mkWorld (mkClient 2 (mkLedgerState 6 3)) 2 [500000000],
                 (Some (mkTxn "abc" "executed"), None)))
    by (vm_compute; reflexivity).
  destruct (WaitForTransaction_found 1 0 _ _ _ _ _ _ "abc" _ _ _ Hq Hlt G)
    as (r & Hr & Hok & _).
  exists r. split; [exact Hr |]. apply Hok. split; reflexivity.
Defined.

Lemma WaitForTransaction_expired_witness :
  WaitForTransaction (Rpc := clock_reaches_1000) (1 + 1) (fresh 2) "addr" 3
    "abc" 1000 (5 * Second)
  = (mkWorld (mkClient 2 (mkLedgerState 1000000000 2)) 2 [500000000],
     Some (None, Some ErrExpired)).
Proof.
  assert (Hq : quiet_polls (Rpc := clock_reaches_1000) 1 (fresh 2) 0 "addr"
                 3 1000 (5 * Second)
               = Some (mkWorld (mkClient 2 (mkLedgerState 999999999 1)) 1
                               [500000000], 500000000))
    by (vm_compute; reflexivity).
  assert (Hlt : 500000000 < 5 * Second) by reflexivity.
  assert (G : GetAccountTransaction (Rpc := clock_reaches_1000)
                (mkWorld (mkClient 2 (mkLedgerState 999999999 1)) 1
                         [500000000])
                "addr" 3 true
              = (mkWorld (mkClient 2 (mkLedgerState 1000000000 2)) 2
                         [500000000], (None, None)))
    by (vm_compute; reflexivity).
  destruct (WaitForTransaction_expired 1 0 _ _ _ _ _ _ "abc" _ _ Hq Hlt G)
    as (_ & H & _).
  apply H. vm_compute. discriminate.
Defined.

Lemma WaitForTransaction_lookup_error_witness :
  WaitForTransaction (Rpc := fails_second) (1 + 1) (fresh 2) "addr" 3
    "abc" 1000 (5 * Second)
  = (mkWorld (mkClient 2 (mkLedgerState 5 2)) 2 [500000000],
     Some (None, Some (ErrForeign "connection refused"))).
Proof.
  assert (Hq : quiet_polls (Rpc := fails_second) 1 (fresh 2) 0 "addr" 3
                 1000 (5 * Second)
               = Some (mkWorld (mkClient 2 (mkLedgerState 5 2)) 1
                               [500000000], 500000000))
    by (vm_compute; reflexivity).
  assert (Hlt : 500000000 < 5 * Second) by reflexivity.
  assert (G : GetAccountTransaction (Rpc := fails_second)
                (mkWorld (mkClient 2 (mkLedgerState 5 2)) 1 [500000000])
                "addr" 3 true
              = (mkWorld (mkClient 2 (mkLedgerState 5 2)) 2 [500000000],
                 (None, Some (ErrForeign "connection refused"))))
    by (vm_compute; reflexivity).
  exact (proj1 (WaitForTransaction_lookup_error 1 0 _ _ _ _ _ _ "abc" _ _
                  _ _ Hq Hlt G)).
Defined.

Lemma WaitForTransaction_timeout_witness :
  WaitForTransaction (Rpc := idle 5 2) (2 + 0) (fresh 2) "addr" 3 "abc"
    1000 Second
  = (mkWorld (mkClient 2 (mkLedgerState 5 2)) 2 [500000000; 500000000],
     Some (None, Some (ErrTimeout Second))).
Proof.
  assert (Hq : quiet_polls (Rpc := idle 5 2) 2 (fresh 2) 0 "addr" 3 1000
                 Second
               = Some (mkWorld (mkClient 2 (mkLedgerState 5 2)) 2
                               [500000000; 500000000], 1000000000))
    by (vm_compute; reflexivity).
  assert (Hge : Second <= 1000000000) by (vm_compute; discriminate).
  destruct (WaitForTransaction_timeout (Rpc := idle 5 2) "addr" 3 "abc"
              1000 Second (fresh 2)) as (_ & _ & H).
  exact (H 2%nat 0%nat _ _ Hq Hge).
Defined.

Lemma expiration_product_wraps_witness :
  WaitForTransaction (Rpc := idle 448384 1) (0 + 1) (fresh 2) "addr" 3
    "abc" 18446744073710 (5 * Second)
  = (mkWorld (mkClient 2 (mkLedgerState 448384 1)) 1 [],
     Some (None, Some ErrExpired)) /\
  448384 < 18446744073710 * 1000000.
Proof.
  assert (Hu : is_uint64 18446744073710)
    by (vm_compute; split; [discriminate | reflexivity]).
  assert (Hbig : (2 ^ 64 - 1) / 1000000 < 18446744073710) by reflexivity.
  assert (Hq : quiet_polls (Rpc := idle 448384 1) 0 (fresh 2) 0 "addr" 3
                 18446744073710 (5 * Second) = Some (fresh 2, 0))
    by reflexivity.
  assert (Hlt : 0 < 5 * Second) by reflexivity.
  assert (G : GetAccountTransaction (Rpc := idle 448384 1) (fresh 2) "addr"
                3 true
              = (mkWorld (mkClient 2 (mkLedgerState 448384 1)) 1 [],
                 (None, None)))
    by (vm_compute; reflexivity).
  destruct (expiration_product_wraps (Rpc := idle 448384 1) 18446744073710
              Hu Hbig) as (_ & _ & _ & H).
  apply (H 0%nat 0%nat _ _ _ _ _ _ "abc" _ Hq Hlt G).
  - vm_compute. discriminate.
  - vm_compute. split; [discriminate | reflexivity].
Defined.

Lemma interface_monotone_except_update_witness :
  ledger_le (mkLedgerState 100 5)
    (last (self (run_all (Rpc := idle 90 5) 3
                   [OpRpc (MGetAccount "a"); OpLastResponseLedgerState;
                    OpWaitForTransaction "addr" 3 "abc" 1000 Second]
                   (at_state 2 100 5)))).
Proof.
  apply (interface_monotone_except_update (Rpc := idle 90 5) 3
           [OpRpc (MGetAccount "a"); OpLastResponseLedgerState;
            OpWaitForTransaction "addr" 3 "abc" 1000 Second]
           (at_state 2 100 5)).
  reflexivity.
Defined.

(** Counterexample to C5 as stated: [UpdateLastResponseLedgerState] is an
    operation of the interface, and from the stored state (100, 5) it
    stores (0, 0). *)
Lemma UpdateLastResponseLedgerState_rewinds :
  ~ (forall (o : operation) (w : world),
       ledger_le (last (self w)) (last (self (run (Rpc := down) 0 o w)))).
Proof.
  intros H.
  specialize (H (OpUpdateLastResponseLedgerState (mkLedgerState 0 0))
                (at_state 2 100 5)).
  unfold ledger_le in H. cbn in H. lia.
Qed.

(** *** Further properties *)

Lemma invoke_transport_error_witness :
  snd (snd (invoke (Rpc := down) MGetCurrencies (fresh 2)))
  = Some (ErrForeign "connection refused") /\
  reply_is_nil (fst (snd (invoke (Rpc := down) MGetCurrencies (fresh 2))))
  = true /\
  fst (invoke (Rpc := down) MGetCurrencies (fresh 2)) = called (fresh 2).
Proof.
  apply (invoke_transport_error (Rpc := down) MGetCurrencies (fresh 2)
           "connection refused").
  reflexivity.
Defined.

Lemma invoke_error_nil_reply_witness :
  reply_is_nil (fst (snd (invoke (Rpc := other_chain) (MGetAccount "a")
                            (fresh 2)))) = true.
Proof.
  apply (invoke_error_nil_reply (Rpc := other_chain) (MGetAccount "a")
           (fresh 2) (ErrChainID 2 4)).
  vm_compute. reflexivity.
Defined.

Lemma fresh_client_accepts_witness :
  validateAndUpdateState (Ext := ext) (NewWithJsonRpcClient 2)
    (mkLedgerState 100 5)
  = (mkClient 2 (mkLedgerState 100 5), None).
Proof.
  apply (fresh_client_accepts (Ext := ext) 2 (mkLedgerState 100 5));
    (vm_compute; split; [discriminate | reflexivity]).
Defined.

Lemma WaitForTransaction_result_shape_witness :
  (exists t,
     (Some (mkTxn "abc" "executed"), None) = (Some t, @None error) /\
     txnSignature t = "abc" /\
     vmStatusType (txnVmStatus t) = VmStatusExecuted) \/
  (exists e,
     (Some (mkTxn "abc" "executed"), @None error) = (None, Some e)).
Proof.
  apply (WaitForTransaction_result_shape (Rpc := lands_second) 2 (fresh 2)
           (mkWorld (mkClient 2 (mkLedgerState 6 3)) 2 [500000000])
           "addr" 3 "abc" 1000 (5 * Second)).
  vm_compute. reflexivity.
Defined.

Lemma WaitForTransaction_expiration_zero_witness :
  exists w' r,
    WaitForTransaction (Rpc := idle 5 2) 1 (fresh 2) "addr" 3 "abc" 0
      (5 * Second) = (w', Some r) /\
    calls w' = S (calls (fresh 2)) /\ slept w' = slept (fresh 2) /\
    (GetAccountTransaction (Rpc := idle 5 2) (fresh 2) "addr" 3 true
     = (w', (None, None)) -> r = (None, Some ErrExpired)).
Proof.
  apply (WaitForTransaction_expiration_zero (Rpc := idle 5 2) 0 (fresh 2)
           "addr" 3 "abc" (5 * Second)).
  - reflexivity.
  - vm_compute. discriminate.
Defined.

Lemma WaitForTransaction_returns_witness :
  exists r,
    snd (WaitForTransaction (Rpc := idle 5 2) 10 (fresh 2) "addr" 3 "abc"
           1000 (5 * Second)) = Some r.
Proof.
  apply (WaitForTransaction_returns (Rpc := idle 5 2) (fresh 2) "addr" 3
           "abc" 1000 (5 * Second) 10).
  - vm_compute. discriminate.
  - vm_compute. lia.
Defined.

Lemma WaitForTransaction_timeout_polls_witness :
  calls (mkWorld (mkClient 2 (mkLedgerState 5 2)) 2
                 [500000000; 500000000])
  = (calls (fresh 2) + iterations Second)%nat /\
  slept (mkWorld (mkClient 2 (mkLedgerState 5 2)) 2
                 [500000000; 500000000])
  = (repeat step (iterations Second) ++ slept (fresh 2))%list.
Proof.
  apply (WaitForTransaction_timeout_polls (Rpc := idle 5 2) 2 (fresh 2) _
           "addr" 3 "abc" 1000 Second Second).
  - vm_compute. discriminate.
  - vm_compute. reflexivity.
Defined.

Lemma WaitForTransaction_huge_timeout_witness :
  WaitForTransaction (Rpc := idle 5 2) 3 (fresh 2) "addr" 3 "abc" 1000
    (2 ^ 63 - 1)
  <> (fresh 2, Some (None, Some (ErrTimeout (2 ^ 63 - 1)))).
Proof.
  apply (WaitForTransaction_huge_timeout (Rpc := idle 5 2) 3 (fresh 2)
           (fresh 2) "addr" 3 "abc" 1000 (2 ^ 63 - 1) (2 ^ 63 - 1)).
  vm_compute. reflexivity.
Defined.

Lemma WaitForTransaction_validation_error_witness :
  WaitForTransaction (Rpc := other_chain) (0 + 1) (fresh 2) "addr" 3 "abc"
    1000 (5 * Second)
  = (called (fresh 2), Some (None, Some (ErrChainID 2 4))).
Proof.
  apply (WaitForTransaction_validation_error (Rpc := other_chain) 0 0
           (fresh 2) (fresh 2) 0 "addr" 3 "abc" 1000 (5 * Second)
           (resp 4 7 7 (Some "server error") None) (ErrChainID 2 4));
    reflexivity.
Defined.

Lemma WaitForTransaction_response_error_witness :
  WaitForTransaction (Rpc := erring) (0 + 1) (fresh 2) "addr" 3 "abc" 1000
    (5 * Second)
  = (mkWorld (mkClient 2 (mkLedgerState 7 7)) 1 [],
     Some (None, Some (ErrResponse "server error"))).
Proof.
  apply (WaitForTransaction_response_error (Rpc := erring) 0 0 (fresh 2)
           (fresh 2) 0 "addr" 3 "abc" 1000 (5 * Second)
           (resp 2 7 7 (Some "server error") None) "server error");
    reflexivity.
Defined.

Lemma waitAccountSequence_returns_witness :
  exists w0 a,
    GetAccount (Ext := MintFixture.ext) (Rpc := MintFixture.minting)
      (Dec := MintFixture.dec) w0 mint_address
    = (mkWorld (mkClient 2 (mkLedgerState 3 3)) 4
               [100000000; 100000000; 100000000], (Some a, None)) /\
    wrap_uint64 3 <= SequenceNumber (AccountData := MintFixture.acc) a.
Proof.
  apply (waitAccountSequence_returns (Rpc := MintFixture.minting)
           (Dec := MintFixture.dec) (Acc := MintFixture.acc)
           MintFixture.fresh
           (mkWorld (mkClient 2 (mkLedgerState 3 3)) 4
                    [100000000; 100000000; 100000000]) 3).
  vm_compute. reflexivity.
Defined.

(** From the zero state the overlapping calls with (100, 5) and (90, 4)
    are both accepted and leave (90, 4) stored. *)
Lemma overlapping_updates_last_write_wins_witness :
  interleave (Ext := ext) [true; false; true; false]
    (NewWithJsonRpcClient 2)
    (Entered (mkLedgerState 100 5)) (Entered (mkLedgerState 90 4))
  = (mkClient 2 (mkLedgerState 90 4), (Returned None, Returned None)).
Proof.
  assert (Hb1 : ~ behind (mkLedgerState 100 5)
                  (last (NewWithJsonRpcClient 2)))
    by (unfold behind; cbn; lia).
  assert (Hn1 : mkLedgerState 100 5 <> last (NewWithJsonRpcClient 2))
    by (cbn; discriminate).
  assert (Hb2 : ~ behind (mkLedgerState 90 4)
                  (last (NewWithJsonRpcClient 2)))
    by (unfold behind; cbn; lia).
  assert (Hn2 : mkLedgerState 90 4 <> last (NewWithJsonRpcClient 2))
    by (cbn; discriminate).
  exact (proj2 (proj2 (overlapping_updates_last_write_wins (Ext := ext)
                         (NewWithJsonRpcClient 2) (mkLedgerState 100 5)
                         (mkLedgerState 90 4))
                      Hb1 Hn1 Hb2 Hn2)).
Defined.

End Scenarios.
